(** * heritage_oodb_sim: a shallow embedding of the heritage store

    The Python module [heritage_oodb_sim.py] keeps seven dataclasses, a
    [SimpleOODB] store built on a [shelve] shelf opened with
    [writeback=True], three resolver methods on [Artifact] and two linear
    queries.  This file embeds the data model and every operation the
    properties below talk about, then proves those properties.

    Conventions of the embedding:
    - Python [str] is [string], the UTF-8 bytes of the text; equality,
      the [in] operator and [<] on [str] are then byte-wise ([String.eqb],
      [contains], [String.ltb]), as on code points.
    - [str.lower] is not defined here: it is the method [lower] of the
      class [StrLower], of which the statements only use that it acts on
      ASCII text as ASCII lower-casing.
    - A Python [dict] is an insertion-ordered association list with string
      keys ([dict_set] overwrites in place, or appends a new key).
    - The shelf is the pair of its dbm object ([disk]) and its write-back
      [cache]; both are finite maps from collection name to collection.
    - A method that can raise returns a [Result]; a method that touches the
      shelf is a computation in the state-and-exception monad [M]. *)

From Stdlib Require Import String Ascii ZArith.
From stdpp Require Import gmap strings list fin_maps sorting.

Open Scope string_scope.
Open Scope list_scope.

(* ===================================================================== *)
(** ** Strings: [str.lower], the [in] operator, ordering                  *)
(* ===================================================================== *)

(** Lower-casing of one ASCII character: 'A'..'Z' move to 'a'..'z'. *)
Definition lower_ascii (c : ascii) : ascii :=
  let n := nat_of_ascii c in
  if (65 <=? n)%nat && (n <=? 90)%nat then ascii_of_nat (n + 32) else c.

(** Lower-casing of ASCII text. *)
Fixpoint ascii_lower (s : string) : string :=
  match s with
  | EmptyString => EmptyString
  | String c s' => String (lower_ascii c) (ascii_lower s')
  end.

(** The text is ASCII: every byte is below 128. *)
Fixpoint is_ascii (s : string) : bool :=
  match s with
  | EmptyString => true
  | String c s' => (nat_of_ascii c <? 128)%nat && is_ascii s'
  end.

(** [s.lower()].  Python lower-cases by the Unicode tables, which are not
    part of the module; [lower] stands for that function, and all that is
    used of it is what it does to ASCII text. *)
Class StrLower : Type := {
  lower : string -> string;
  lower_on_ascii : forall s, is_ascii s = true -> lower s = ascii_lower s
}.

(** One such function: it lower-cases 'A'..'Z' and keeps every other
    byte.  It is [str.lower] on stores whose text is ASCII. *)
Definition ascii_str_lower : StrLower :=
  {| lower := ascii_lower; lower_on_ascii := fun s _ => eq_refl |}.

(** [m in s] for two strings: [m] occurs in [s] as a contiguous block. *)
Fixpoint contains (m s : string) : bool :=
  String.prefix m s ||
  match s with
  | EmptyString => false
  | String _ s' => contains m s'
  end.

(* ===================================================================== *)
(** ** Domain classes                                                     *)
(* ===================================================================== *)

(** The untyped [Dict] payloads ([snapshot], [dimensions], the entries of
    [provenance]); nothing in the module looks inside them. *)
Inductive Scalar : Type :=
| SInt (z : Z)
| SStr (s : string).

Definition Blob : Type := list (string * Scalar).

Record Person : Type := mkPerson {
  person_id : string;
  name : string;
  role : option string
}.

(** [Institution.name] is spelled [inst_name]: [name] is taken by [Person]. *)
Record Institution : Type := mkInstitution {
  inst_id : string;
  inst_name : string;
  address : option string
}.

Record ArtifactVersion : Type := mkArtifactVersion {
  version_id : string;
  timestamp : string;
  notes : string;
  snapshot : Blob
}.

Record DigitalSurrogate : Type := mkDigitalSurrogate {
  surrogate_id : string;
  file_ref : string;
  file_type : string;
  derived_from_id : option string
}.

(** [DigitalSurrogate.preview_info] *)
Definition preview_info (self : DigitalSurrogate) : string :=
  String.append "Preview("
    (String.append (surrogate_id self)
       (String.append ") -> "
          (String.append (file_ref self)
             (String.append " (" (String.append (file_type self) ")"))))).

Record ConservationRecord : Type := mkConservationRecord {
  record_id : string;
  date : string;
  restorer_id : string;
  treatment : string;
  before_surrogates : list string;
  after_surrogates : list string
}.

(** [Loan.artifact_id] is spelled [artifact_id_of_loan]: [artifact_id] is
    the field of [Artifact]. *)
Record Loan : Type := mkLoan {
  loan_id : string;
  artifact_id_of_loan : string;
  from_inst : string;
  to_inst : string;
  start_date : string;
  end_date : string;
  status : string
}.

Record Artifact : Type := mkArtifact {
  artifact_id : string;
  title : string;
  creator : string;
  date_created : string;
  material : option string;
  dimensions : option Blob;
  provenance : list Blob;
  versions : list ArtifactVersion;
  digital_surrogates : list string;
  conservation_records : list string;
  loans : list string
}.

(* ===================================================================== *)
(** ** Python values, exceptions, dictionaries                            *)
(* ===================================================================== *)

(** The objects that reach the store: [None], a [str], a [dict] with string
    keys, or an instance of one of the seven dataclasses.  They are values:
    that two entries of the store may hold one and the same [dict] object
    (so that a later update of one shows in the other) is not modelled, and
    a statement that would depend on it excludes stored [dict]s by a
    hypothesis. *)
#[warnings="-register-all"]
Inductive Value : Type :=
| VNone
| VStr (s : string)
| VDict (d : list (string * Value))
| VPerson (p : Person)
| VInstitution (i : Institution)
| VVersion (v : ArtifactVersion)
| VSurrogate (d : DigitalSurrogate)
| VConservation (c : ConservationRecord)
| VLoan (l : Loan)
| VArtifact (a : Artifact).

(** A collection: the [dict] stored under one top-level shelf key. *)
Abbreviation Collection := (list (string * Value)).

Inductive Exn : Type :=
| KeyError
| TypeError
| AttributeError.

Inductive Result (A : Type) : Type :=
| Ok (a : A)
| Raise (e : Exn).
Arguments Ok {A} a.
Arguments Raise {A} e.

Section Dict.
Context {V : Type}.

(** [d[k]] when present *)
Fixpoint dict_get (k : string) (d : list (string * V)) : option V :=
  match d with
  | [] => None
  | (k', v) :: d' => if String.eqb k k' then Some v else dict_get k d'
  end.

(** [d[k] = v]: an existing key keeps its position, a new key goes last. *)
Fixpoint dict_set (k : string) (v : V) (d : list (string * V))
  : list (string * V) :=
  match d with
  | [] => [(k, v)]
  | (k', v') :: d' =>
      if String.eqb k k' then (k, v) :: d' else (k', v') :: dict_set k v d'
  end.

(** [k in d] *)
Definition dict_mem (k : string) (d : list (string * V)) : bool :=
  match dict_get k d with Some _ => true | None => false end.

(** [d.values()] *)
Definition dict_values (d : list (string * V)) : list V := map snd d.
End Dict.

(** Truth value of an object: [None], [''] and [{}] are false; a dataclass
    instance defines neither [__bool__] nor [__len__], so it is true. *)
Definition truthy (v : Value) : bool :=
  match v with
  | VNone => false
  | VStr s => negb (String.eqb s "")
  | VDict d => match d with [] => false | _ => true end
  | _ => true
  end.

(** Whether [hash(v)] succeeds.  A [dict] is unhashable, and so is an
    instance of a [@dataclass] with the default [eq=True, frozen=False]. *)
Definition hashable (v : Value) : bool :=
  match v with
  | VNone | VStr _ => true
  | _ => false
  end.

(** [d.get(key)] on a plain [dict] with string keys: the key is hashed
    first; a key that is absent (or is not a string) yields [None]. *)
Definition pydict_get (d : Collection) (key : Value) : Result Value :=
  if hashable key then
    match key with
    | VStr k => Ok (default VNone (dict_get k d))
    | _ => Ok VNone
    end
  else Raise TypeError.

(** [v.get(key)] on an arbitrary object: only a [dict] has the method. *)
Definition value_get (v : Value) (key : Value) : Result Value :=
  match v with
  | VDict d => pydict_get d key
  | _ => Raise AttributeError
  end.

(** Attribute reads; a missing attribute raises [AttributeError]. *)
Definition attr_title (v : Value) : Result string :=
  match v with VArtifact a => Ok (title a) | _ => Raise AttributeError end.

Definition attr_material (v : Value) : Result (option string) :=
  match v with VArtifact a => Ok (material a) | _ => Raise AttributeError end.

Definition attr_status (v : Value) : Result string :=
  match v with VLoan l => Ok (status l) | _ => Raise AttributeError end.

Definition attr_loan_id (v : Value) : Result string :=
  match v with VLoan l => Ok (loan_id l) | _ => Raise AttributeError end.

Definition attr_date (v : Value) : Result string :=
  match v with VConservation c => Ok (date c) | _ => Raise AttributeError end.

Definition attr_record_id (v : Value) : Result string :=
  match v with VConservation c => Ok (record_id c) | _ => Raise AttributeError end.

Definition attr_restorer_id (v : Value) : Result string :=
  match v with VConservation c => Ok (restorer_id c) | _ => Raise AttributeError end.

(* ===================================================================== *)
(** ** [sorted(l, key=...)]                                               *)
(* ===================================================================== *)

Section Sorted.
Context {A : Type} (key : A -> string).

(** Insert [x], which stood before every element of the sorted [l] in the
    input, in front of the first element whose key is not smaller. *)
Fixpoint sorted_insert (x : A) (l : list A) : list A :=
  match l with
  | [] => [x]
  | y :: l' =>
      if String.ltb (key y) (key x) then y :: sorted_insert x l'
      else x :: y :: l'
  end.

(** [sorted(l, key=key)]: ascending by key and stable, like Python's. *)
Definition sorted (l : list A) : list A := foldr sorted_insert [] l.

(** [key x <= key y], as a sort that only calls [<] sees it: not
    [key y < key x]. *)
Definition key_le (x y : A) : Prop := String.ltb (key y) (key x) = false.

(** [key x < key y] *)
Definition key_lt (x y : A) : Prop := String.ltb (key x) (key y) = true.
End Sorted.

(** [l[-1]]; [None] stands for the [IndexError] of an empty list, which no
    caller below can trigger (each guards the list first). *)
Definition last_item {A : Type} (l : list A) : option A := last l.

(* ===================================================================== *)
(** ** The shelf ([shelve.open(..., writeback=True)])                     *)
(* ===================================================================== *)

(** The shelf operations below follow [shelve.Shelf] of the Python
    standard library, as [shelve.open(..., writeback=True)] builds it.
    [disk] is the dbm object behind the shelf ([Shelf.dict]) as this shelf
    reads it, [cache] the write-back cache of entries that were read or
    assigned since the last [sync].  Entries are pickled on their way to
    [disk]; on the values above pickling is the identity.  [disk] is what
    the file holds once the shelf is closed; whether another [open] of the
    file sees an entry before that depends on the dbm backend and is not
    modelled, nor are failures of the file system. *)
Record Shelf : Type := mkShelf {
  disk : gmap string Collection;
  cache : gmap string Collection
}.

(** Computations over the shelf that may raise.  An exception keeps the
    state reached when it was raised: Python rolls nothing back. *)
Definition M (A : Type) : Type := Shelf -> Result A * Shelf.

Definition ret {A : Type} (a : A) : M A := fun sh => (Ok a, sh).

Definition raise {A : Type} (e : Exn) : M A := fun sh => (Raise e, sh).

Definition bind {A B : Type} (m : M A) (f : A -> M B) : M B :=
  fun sh =>
    match m sh with
    | (Ok a, sh') => f a sh'
    | (Raise e, sh') => (Raise e, sh')
    end.

Definition lift {A : Type} (r : Result A) : M A := fun sh => (r, sh).

Notation "'let*' x ':=' m 'in' k" := (bind m (fun x => k))
  (at level 10, x name, m at level 100, k at level 200).
Notation "m '>>' k" := (bind m (fun _ => k))
  (at level 100, k at level 200, right associativity).

(** [key in shelf]: [Shelf.__contains__] asks the dbm file only. *)
Definition shelf_contains (k : string) (sh : Shelf) : bool :=
  bool_decide (is_Some (disk sh !! k)).

(** [shelf[key]]: [Shelf.__getitem__] answers from the cache, else loads
    the entry from the file and caches it, else raises [KeyError]. *)
Definition shelf_getitem (k : string) : M Collection :=
  fun sh =>
    match cache sh !! k with
    | Some c => (Ok c, sh)
    | None =>
        match disk sh !! k with
        | Some c => (Ok c, mkShelf (disk sh) (<[k := c]> (cache sh)))
        | None => (Raise KeyError, sh)
        end
    end.

(** [shelf[key] = value]: [Shelf.__setitem__] caches the value and assigns
    it to the dbm object. *)
Definition shelf_setitem (k : string) (c : Collection) : M unit :=
  fun sh => (Ok tt, mkShelf (<[k := c]> (disk sh)) (<[k := c]> (cache sh))).

(** [shelf.get(key, default)] *)
Definition shelf_get (k : string) (dflt : Collection) : M Collection :=
  fun sh => if shelf_contains k sh then shelf_getitem k sh else (Ok dflt, sh).

(** An in-place update of the object [shelf[key]] returned: the object is
    the cached one, so the cache entry becomes [c] and the file is left
    alone until the next [sync]. *)
Definition shelf_mutate (k : string) (c : Collection) : M unit :=
  fun sh => (Ok tt, mkShelf (disk sh) (<[k := c]> (cache sh))).

(** [shelf.sync()]: every cached entry is assigned to the dbm object, then
    the cache is dropped. *)
Definition shelf_sync : M unit :=
  fun sh => (Ok tt, mkShelf (cache sh ∪ disk sh) ∅).

(** What a read of [shelf[k]] observes. *)
Definition shelf_view (sh : Shelf) (k : string) : option Collection :=
  match cache sh !! k with
  | Some c => Some c
  | None => disk sh !! k
  end.

(** What [shelf.get(k, dflt)] answers. *)
Definition collection_of (k : string) (dflt : Collection) (sh : Shelf)
  : Collection :=
  if shelf_contains k sh then default dflt (shelf_view sh k) else dflt.

(** [sh'] is [sh] after reads: the file is the same, and each cache entry
    is the old one or was loaded from the file. *)
Definition loads (sh sh' : Shelf) : Prop :=
  disk sh' = disk sh /\
  forall k, cache sh' !! k = cache sh !! k \/
            (cache sh !! k = None /\ cache sh' !! k = disk sh !! k).

(** [shelve.open(dbfile, writeback=True)] on a file holding [file]. *)
Definition shelve_open (file : gmap string Collection) : Shelf :=
  mkShelf file ∅.

(* ===================================================================== *)
(** ** [SimpleOODB]                                                       *)
(* ===================================================================== *)

(** A [SimpleOODB] object holds [dbfile], read once by [_open_db], and
    [_shelf]; the state of its methods is the shelf. *)

Definition COLLECTIONS : list string :=
  ["artifacts"; "digital"; "people"; "institutions"; "loans";
   "conservations"; "indexes"].

(** One turn of the loop in [_open_db]. *)
Definition ensure_collection (col : string) : M unit :=
  fun sh =>
    if shelf_contains col sh then (Ok tt, sh) else shelf_setitem col [] sh.

Fixpoint ensure_collections (cols : list string) : M unit :=
  match cols with
  | [] => ret tt
  | col :: cols' => ensure_collection col >> ensure_collections cols'
  end.

(** [SimpleOODB._open_db], after [shelve.open] *)
Definition _open_db : M unit :=
  ensure_collections COLLECTIONS >>
  let* indexes := shelf_getitem "indexes" in
  if dict_mem "by_title" indexes then ret tt
  else
    let* indexes' := shelf_getitem "indexes" in
    shelf_mutate "indexes" (dict_set "by_title" (VDict []) indexes').

(** [SimpleOODB(filename)] when the file at [filename] holds [file]. *)
Definition SimpleOODB (file : gmap string Collection) : Result unit * Shelf :=
  _open_db (shelve_open file).

(** [SimpleOODB.save]: [Shelf.sync].  The cached entries reach the dbm
    object, from which this store reads them back; the file is complete
    once [close] has run. *)
Definition save : M unit := shelf_sync.

(** [SimpleOODB.close]: [Shelf.close] syncs; what is left is the file. *)
Definition close (sh : Shelf) : gmap string Collection :=
  disk (snd (shelf_sync sh)).

(** [SimpleOODB.get(collection, key=None)] *)
Definition get (collection : string) (key : Value) : M Value :=
  let* col := shelf_get collection [] in
  match key with
  | VNone => ret (VDict col)
  | _ => lift (pydict_get col key)
  end.

(** [idx[k] = v] on an arbitrary object [idx]. *)
Definition value_setitem (idx : Value) (k : string) (v : Value) : Result Value :=
  match idx with
  | VDict d => Ok (VDict (dict_set k v d))
  | _ => Raise TypeError
  end.

Section Model.
Context `{Lower : StrLower}.

(** The body of [if collection == 'artifacts':] in [put]:
    [idx = self._shelf['indexes'].setdefault('by_title', {})] and then
    [idx[obj.title.lower()] = key].  The subscript is evaluated before the
    store into [idx], so a missing [title] raises first. *)
Definition update_title_index (key : string) (obj : Value) : M unit :=
  let* indexes := shelf_getitem "indexes" in
  let* indexes1 :=
    match dict_get "by_title" indexes with
    | Some _ => ret indexes
    | None =>
        let indexes1 := dict_set "by_title" (VDict []) indexes in
        (shelf_mutate "indexes" indexes1 >> ret indexes1)
    end in
  let idx := default VNone (dict_get "by_title" indexes1) in
  let* t := lift (attr_title obj) in
  let* idx' := lift (value_setitem idx (lower t) (VStr key)) in
  shelf_mutate "indexes" (dict_set "by_title" idx' indexes1).

(** [SimpleOODB.put(collection, key, obj)] *)
Definition put (collection key : string) (obj : Value) : M unit :=
  let* col := shelf_getitem collection in
  shelf_mutate collection (dict_set key obj col) >>
  (if String.eqb collection "artifacts" then update_title_index key obj
   else ret tt) >>
  save.

(** [[f(x) for x in l]] where [f] may raise or touch the shelf. *)
Fixpoint mapM {A B : Type} (f : A -> M B) (l : list A) : M (list B) :=
  match l with
  | [] => ret []
  | x :: l' =>
      let* y := f x in
      let* ys := mapM f l' in
      ret (y :: ys)
  end.

(** [[f(x) for x in l]] where [f] may raise. *)
Fixpoint mapR {A B : Type} (f : A -> Result B) (l : list A) : Result (list B) :=
  match l with
  | [] => Ok []
  | x :: l' =>
      match f x with
      | Raise e => Raise e
      | Ok y =>
          match mapR f l' with
          | Raise e => Raise e
          | Ok ys => Ok (y :: ys)
          end
      end
  end.

(** [[x for x in l if p(x)]] where [p] may raise. *)
Fixpoint filterM {A : Type} (p : A -> Result bool) (l : list A)
  : Result (list A) :=
  match l with
  | [] => Ok []
  | x :: l' =>
      match p x with
      | Raise e => Raise e
      | Ok b =>
          match filterM p l' with
          | Raise e => Raise e
          | Ok r => Ok (if b then x :: r else r)
          end
      end
  end.

(** The test [a.material and material.lower() in a.material.lower()]: an
    [Optional[str]] is false when it is [None] or empty. *)
Definition material_matches (material : string) (a : Value) : Result bool :=
  match attr_material a with
  | Raise e => Raise e
  | Ok None => Ok false
  | Ok (Some am) =>
      if String.eqb am "" then Ok false
      else Ok (contains (lower material) (lower am))
  end.

(** [SimpleOODB.query_artifacts_by_material(material)] *)
Definition query_artifacts_by_material (material : string) : M (list Value) :=
  let* artifacts := shelf_getitem "artifacts" in
  lift (filterM (material_matches material) (dict_values artifacts)).

(** The test [c.restorer_id == restorer_id] *)
Definition restorer_matches (rid : string) (c : Value) : Result bool :=
  match attr_restorer_id c with
  | Raise e => Raise e
  | Ok r => Ok (String.eqb r rid)
  end.

(** [SimpleOODB.query_conservation_by_restorer(restorer_id)] *)
Definition query_conservation_by_restorer (rid : string) : M (list Value) :=
  let* conservations := shelf_getitem "conservations" in
  lift (filterM (restorer_matches rid) (dict_values conservations)).

(* ===================================================================== *)
(** ** Resolver methods of [Artifact]                                     *)
(* ===================================================================== *)

(** [Artifact.current_version] *)
Definition current_version (self : Artifact) : option ArtifactVersion :=
  match versions self with
  | [] => None
  | _ => last_item (sorted timestamp (versions self))
  end.

(** The object handed to a resolver as [store]: the demo passes the raw
    shelf [store._shelf]; the [SimpleOODB] object itself also has a [get]. *)
Inductive StoreRef : Type :=
| TheShelf
| TheOODB.

(** [store.get(name, {})]: on the shelf the second argument is the
    default, on a [SimpleOODB] it is the [key] parameter. *)
Definition store_get (store : StoreRef) (name : string) : M Value :=
  match store with
  | TheShelf => let* col := shelf_get name [] in ret (VDict col)
  | TheOODB => get name (VDict [])
  end.

(** The loop of [Artifact.is_on_loan] over the remaining loan ids. *)
Fixpoint is_on_loan_from (store : StoreRef) (ids : list string)
  : M (bool * Value) :=
  match ids with
  | [] => ret (false, VNone)
  | id :: ids' =>
      let* col := store_get store "loans" in
      let* loan := lift (value_get col (VStr id)) in
      if truthy loan then
        let* st := lift (attr_status loan) in
        if String.eqb st "ACTIVE" then ret (true, loan)
        else is_on_loan_from store ids'
      else is_on_loan_from store ids'
  end.

(** [Artifact.is_on_loan(store)] *)
Definition is_on_loan (self : Artifact) (store : StoreRef) : M (bool * Value) :=
  is_on_loan_from store (loans self).

(** The dictionary [display_status] returns, one field per key. *)
Record Status : Type := mkStatus {
  st_artifact_id : string;
  st_title : string;
  st_on_loan : bool;
  st_loan_ref : option string;
  st_current_version : option string;
  st_last_conservation : option string
}.

(** [x.attr if x else None] *)
Definition attr_if {A : Type} (attr : Value -> Result A) (x : Value)
  : Result (option A) :=
  if truthy x then
    match attr x with Ok a => Ok (Some a) | Raise e => Raise e end
  else Ok None.

(** [sorted(l, key=attr)] on objects: Python computes the key of every
    element first (so a missing attribute raises before any comparison),
    sorts the decorated list and strips the keys. *)
Definition sorted_by_attr (attr : Value -> Result string) (l : list Value)
  : Result (list Value) :=
  match mapR (fun c => match attr c with
                       | Ok k => Ok (k, c)
                       | Raise e => Raise e
                       end) l with
  | Ok kl => Ok (map snd (sorted fst kl))
  | Raise e => Raise e
  end.

(** [sorted(crs, key=lambda c: c.date)[-1]] for a non-empty [crs] *)
Definition latest_by_date (crs : list Value) : Result Value :=
  match sorted_by_attr attr_date crs with
  | Ok l => Ok (default VNone (last_item l))
  | Raise e => Raise e
  end.

(** [Artifact.display_status(store)] *)
Definition display_status (self : Artifact) (store : StoreRef) : M Status :=
  let* r := is_on_loan self store in
  let '(onloan, loan) := r in
  let cv := current_version self in
  let* last_conservation :=
    match conservation_records self with
    | [] => ret VNone
    | _ =>
        let* crs :=
          mapM (fun cid =>
                  let* col := store_get store "conservations" in
                  lift (value_get col (VStr cid)))
               (conservation_records self) in
        let crs := List.filter truthy crs in
        match crs with
        | [] => ret VNone
        | _ => lift (latest_by_date crs)
        end
    end in
  let* loan_ref := lift (attr_if attr_loan_id loan) in
  let* last_ref := lift (attr_if attr_record_id last_conservation) in
  ret (mkStatus (artifact_id self) (title self) onloan loan_ref
         (version_id <$> cv) last_ref).


(* ===================================================================== *)
(** ** The objects and the store of [demo()]                              *)
(* ===================================================================== *)

(** [new_id] draws random identifiers and [datetime.now()] the time stamp;
    here they are fixed. *)
Definition demo_p1 : Person := mkPerson "person_1" "Arun Kumar" (Some "Restorer").
Definition demo_inst1 : Institution := mkInstitution "inst_1" "Metro Museum" None.
Definition demo_inst2 : Institution := mkInstitution "inst_2" "City Archive" None.
Definition demo_v1 : ArtifactVersion :=
  mkArtifactVersion "ver_1" "2024-01-01 10:00:00" "Initial catalog entry"
    [("condition", SStr "fair")].
Definition demo_d1 : DigitalSurrogate :=
  mkDigitalSurrogate "dig_1" "marina_highres.tif" "tif" (Some "art_1").
Definition demo_cons : ConservationRecord :=
  mkConservationRecord "cons_1" "2023-08-15" "person_1"
    "cleaning and varnish removal" ["dig_1"] [].
Definition demo_loan : Loan :=
  mkLoan "loan_1" "art_1" "inst_1" "inst_2" "2024-01-10" "2024-04-10" "ACTIVE".
Definition demo_art : Artifact :=
  mkArtifact "art_1" "Portrait of Marina" "Unknown Artist" "1784-01-01"
    (Some "oil on canvas") (Some [("h_cm", SInt 120); ("w_cm", SInt 90)])
    [] [demo_v1] ["dig_1"] ["cons_1"] ["loan_1"].

(** The shelf right after [SimpleOODB()] on a new file. *)
Definition fresh_store : Shelf := snd (SimpleOODB ∅).

(** The seven [put] calls of [demo()], in order. *)
Definition demo_puts : M unit :=
  put "people" "person_1" (VPerson demo_p1) >>
  put "institutions" "inst_1" (VInstitution demo_inst1) >>
  put "institutions" "inst_2" (VInstitution demo_inst2) >>
  put "digital" "dig_1" (VSurrogate demo_d1) >>
  put "conservations" "cons_1" (VConservation demo_cons) >>
  put "loans" "loan_1" (VLoan demo_loan) >>
  put "artifacts" "art_1" (VArtifact demo_art).

Definition demo_store : Shelf := snd (demo_puts fresh_store).

(** A store with four loans of ['art_1'], and artifacts referring to them
    (for the statements about [is_on_loan]). *)
Definition loan_with (id st : string) : Loan :=
  mkLoan id "art_1" "inst_1" "inst_2" "2024-01-10" "2024-04-10" st.

Definition loans_store : Shelf :=
  snd ((put "loans" "l_done" (VLoan (loan_with "l_done" "COMPLETED")) >>
        put "loans" "l_pend" (VLoan (loan_with "l_pend" "PENDING")) >>
        put "loans" "l_act" (VLoan (loan_with "l_act" "ACTIVE")) >>
        put "loans" "l_act2" (VLoan (loan_with "l_act2" "ACTIVE")))
         fresh_store).

Definition art_with_loans (ids : list string) : Artifact :=
  mkArtifact "art_1" "Portrait of Marina" "Unknown Artist" "1784-01-01"
    (Some "oil on canvas") None [] [demo_v1] [] [] ids.

(** A store with one oil painting and one tempera panel, and a store with
    an artifact whose [material] is the empty string (for the statements
    about [query_artifacts_by_material]). *)
Definition art_of_material (id ttl : string) (mat : option string) : Artifact :=
  mkArtifact id ttl "Unknown Artist" "1784-01-01" mat None [] [] [] [] [].

Definition oil_art : Artifact :=
  art_of_material "art_1" "Portrait of Marina" (Some "oil on canvas").

Definition tempera_art : Artifact :=
  art_of_material "art_2" "Saint Luke" (Some "tempera").

Definition blank_art : Artifact :=
  art_of_material "art_3" "Untitled" (Some "").

Definition materials_store : Shelf :=
  snd ((put "artifacts" "art_1" (VArtifact oil_art) >>
        put "artifacts" "art_2" (VArtifact tempera_art)) fresh_store).

Definition blank_store : Shelf :=
  snd (put "artifacts" "art_3" (VArtifact blank_art) fresh_store).

(* ===================================================================== *)
(** ** Vocabulary of the statements                                       *)
(* ===================================================================== *)

(** A computation that only reads the shelf. *)
Definition reads {A : Type} (m : M A) : Prop :=
  forall sh, loads sh (snd (m sh)).

(** The loop of [is_on_loan] over a fixed ['loans'] collection [col]. *)
Fixpoint scan_loans (col : Collection) (ids : list string)
  : Result (bool * Value) :=
  match ids with
  | [] => Ok (false, VNone)
  | id :: ids' =>
      let loan := default VNone (dict_get id col) in
      if truthy loan then
        match attr_status loan with
        | Raise e => Raise e
        | Ok st =>
            if String.eqb st "ACTIVE" then Ok (true, loan)
            else scan_loans col ids'
        end
      else scan_loans col ids'
  end.

(** The loan id [id] is passed over by [is_on_loan]: it does not resolve
    in the ['loans'] collection, or resolves to a loan that is not
    ['ACTIVE']. *)
Definition loan_skipped (sh : Shelf) (id : string) : Prop :=
  fst (get "loans" (VStr id) sh) = Ok VNone \/
  exists l, fst (get "loans" (VStr id) sh) = Ok (VLoan l) /\
            status l <> "ACTIVE".

(** The id resolves in collection [name] to nothing or to an object [v]
    satisfying [P]. *)
Definition resolves_within (sh : Shelf) (name : string) (P : Value -> Prop)
  (id : string) : Prop :=
  fst (get name (VStr id) sh) = Ok VNone \/
  exists v, fst (get name (VStr id) sh) = Ok v /\ P v.

Definition is_loan (v : Value) : Prop := exists l, v = VLoan l.
Definition is_conservation (v : Value) : Prop := exists c, v = VConservation c.
Definition is_artifact (v : Value) : Prop := exists a, v = VArtifact a.

(** The filter of [query_artifacts_by_material] on an [Artifact]: the
    material is a non-empty string whose lower-cased form contains the
    lower-cased search string. *)
Definition material_hit (m : string) (v : Value) : bool :=
  match v with
  | VArtifact a =>
      match material a with
      | Some s => negb (String.eqb s "") && contains (lower m) (lower s)
      | None => false
      end
  | _ => false
  end.

(** The conservation records the ids resolve to, in the order of [ids]. *)
Definition resolved_conservations (sh : Shelf) (ids : list string)
  : list ConservationRecord :=
  omap (fun id => match fst (get "conservations" (VStr id) sh) with
                  | Ok (VConservation c) => Some c
                  | _ => None
                  end) ids.

(** Every key of the shelf, cached or on file, is one of the seven. *)
Definition known_keys (sh : Shelf) : Prop :=
  forall k, is_Some (cache sh !! k) \/ is_Some (disk sh !! k) ->
            k ∈ COLLECTIONS.

(** The stores a program reaches through the module: it opens a new file,
    then calls methods, and may close and open the file again. *)
Inductive reachable : Shelf -> Prop :=
| reach_new : reachable fresh_store
| reach_put sh C k r :
    reachable sh -> reachable (snd (put C k r sh))
| reach_get sh C key :
    reachable sh -> reachable (snd (get C key sh))
| reach_save sh :
    reachable sh -> reachable (snd (save sh))
| reach_query_material sh m :
    reachable sh -> reachable (snd (query_artifacts_by_material m sh))
| reach_query_restorer sh rid :
    reachable sh -> reachable (snd (query_conservation_by_restorer rid sh))
| reach_is_on_loan sh a store :
    reachable sh -> reachable (snd (is_on_loan a store sh))
| reach_display_status sh a store :
    reachable sh -> reachable (snd (display_status a store sh))
| reach_reopen sh :
    reachable sh -> reachable (snd (SimpleOODB (close sh))).

(* ===================================================================== *)
(** ** Further vocabulary: shelf invariants, typed filters, [demo]        *)
(* ===================================================================== *)

(** The write-back cache holds entries only under keys the dbm object
    has: an entry enters the cache when it is read from the dbm object or
    assigned, and an assignment reaches the dbm object too. *)
Definition cache_on_file (sh : Shelf) : Prop :=
  forall k, is_Some (cache sh !! k) -> is_Some (disk sh !! k).

(** ['indexes'] holds an entry under ['by_title']. *)
Definition has_title_index (sh : Shelf) : Prop :=
  exists ix idx, shelf_view sh "indexes" = Some ix /\
                 dict_get "by_title" ix = Some idx.

(** The filter of [query_conservation_by_restorer] on a
    [ConservationRecord]. *)
Definition restorer_hit (rid : string) (v : Value) : bool :=
  match v with
  | VConservation c => String.eqb (restorer_id c) rid
  | _ => false
  end.

(** [self.versions.append(v)], as [demo()] does before storing. *)
Definition append_version (self : Artifact) (v : ArtifactVersion) : Artifact :=
  mkArtifact (artifact_id self) (title self) (creator self)
    (date_created self) (material self) (dimensions self) (provenance self)
    (versions self ++ [v]) (digital_surrogates self)
    (conservation_records self) (loans self).

(** [new_id(prefix)], given the eight hexadecimal digits [uuid4] drew. *)
Definition new_id (prefix hex : string) : string :=
  String.append prefix (String.append "_" hex).

(** What one run of [demo()] draws: the digits of its eight [new_id]
    calls, in call order, and the text of [datetime.now()]. *)
Record Draws : Type := mkDraws {
  hex_person : string;
  hex_inst1 : string;
  hex_inst2 : string;
  hex_art : string;
  hex_ver : string;
  hex_dig : string;
  hex_cons : string;
  hex_loan : string;
  now : string
}.

(** What [demo()] prints: the status dictionary, one line of id, title and
    material per artifact found, one line of id, date and treatment per
    conservation record found, and the preview line. *)
Record DemoOutput : Type := mkDemoOutput {
  out_status : Status;
  out_by_material : list (string * string * option string);
  out_by_restorer : list (string * string * string);
  out_preview : string
}.

(** [a.display_status(...)] on whatever [store.get] returned. *)
Definition call_display_status (a : Value) (store : StoreRef) : M Status :=
  match a with
  | VArtifact art => display_status art store
  | _ => raise AttributeError
  end.

(** [d.preview_info()] on whatever [store.get] returned. *)
Definition call_preview_info (d : Value) : Result string :=
  match d with
  | VSurrogate s => Ok (preview_info s)
  | _ => Raise AttributeError
  end.

(** The attributes printed in the two [for] loops of [demo()]. *)
Definition artifact_line (o : Value)
  : Result (string * string * option string) :=
  match o with
  | VArtifact a => Ok (artifact_id a, title a, material a)
  | _ => Raise AttributeError
  end.

Definition conservation_line (c : Value) : Result (string * string * string) :=
  match c with
  | VConservation r => Ok (record_id r, date r, treatment r)
  | _ => Raise AttributeError
  end.

(** The [try] block of [demo()]. *)
Definition demo_try (d : Draws) : M DemoOutput :=
  let p1 := mkPerson (new_id "person" (hex_person d)) "Arun Kumar"
              (Some "Restorer") in
  let inst1 := mkInstitution (new_id "inst" (hex_inst1 d)) "Metro Museum"
                 None in
  let inst2 := mkInstitution (new_id "inst" (hex_inst2 d)) "City Archive"
                 None in
  put "people" (person_id p1) (VPerson p1) >>
  put "institutions" (inst_id inst1) (VInstitution inst1) >>
  put "institutions" (inst_id inst2) (VInstitution inst2) >>
  let art0 := mkArtifact (new_id "art" (hex_art d)) "Portrait of Marina"
                "Unknown Artist" "1784-01-01" (Some "oil on canvas")
                (Some [("h_cm", SInt 120); ("w_cm", SInt 90)])
                [] [] [] [] [] in
  let v1 := mkArtifactVersion (new_id "ver" (hex_ver d)) (now d)
              "Initial catalog entry" [("condition", SStr "fair")] in
  let art1 := append_version art0 v1 in
  let d1 := mkDigitalSurrogate (new_id "dig" (hex_dig d)) "marina_highres.tif"
              "tif" (Some (artifact_id art1)) in
  put "digital" (surrogate_id d1) (VSurrogate d1) >>
  let art2 := mkArtifact (artifact_id art1) (title art1) (creator art1)
                (date_created art1) (material art1) (dimensions art1)
                (provenance art1) (versions art1)
                (digital_surrogates art1 ++ [surrogate_id d1])
                (conservation_records art1) (loans art1) in
  let cons := mkConservationRecord (new_id "cons" (hex_cons d)) "2023-08-15"
                (person_id p1) "cleaning and varnish removal"
                [surrogate_id d1] [] in
  put "conservations" (record_id cons) (VConservation cons) >>
  let art3 := mkArtifact (artifact_id art2) (title art2) (creator art2)
                (date_created art2) (material art2) (dimensions art2)
                (provenance art2) (versions art2) (digital_surrogates art2)
                (conservation_records art2 ++ [record_id cons])
                (loans art2) in
  let loan := mkLoan (new_id "loan" (hex_loan d)) (artifact_id art3)
                (inst_id inst1) (inst_id inst2) "2024-01-10" "2024-04-10"
                "ACTIVE" in
  put "loans" (loan_id loan) (VLoan loan) >>
  let art := mkArtifact (artifact_id art3) (title art3) (creator art3)
               (date_created art3) (material art3) (dimensions art3)
               (provenance art3) (versions art3) (digital_surrogates art3)
               (conservation_records art3) (loans art3 ++ [loan_id loan]) in
  put "artifacts" (artifact_id art) (VArtifact art) >>
  let* a := get "artifacts" (VStr (artifact_id art)) in
  let* st := call_display_status a TheShelf in
  let* found := query_artifacts_by_material "oil" in
  let* lines1 := lift (mapR artifact_line found) in
  let* found2 := query_conservation_by_restorer (person_id p1) in
  let* lines2 := lift (mapR conservation_line found2) in
  let* dg := get "digital" (VStr (surrogate_id d1)) in
  let* pv := lift (call_preview_info dg) in
  ret (mkDemoOutput st lines1 lines2 pv).

(** [demo()] when the file [heritage_store.db] holds [file]: what it
    prints (or raises) and the file it leaves.  [finally: store.close()]
    runs either way; the store is opened before the [try]. *)
Definition demo (d : Draws) (file : gmap string Collection)
  : Result DemoOutput * gmap string Collection :=
  match SimpleOODB file with
  | (Raise e, sh) => (Raise e, disk sh)
  | (Ok _, sh) =>
      match demo_try d sh with
      | (r, sh') => (r, close sh')
      end
  end.

(** The objects one run of [demo()] stores, as they are when stored. *)
Definition demo_art_of (d : Draws) : Artifact :=
  mkArtifact (new_id "art" (hex_art d)) "Portrait of Marina" "Unknown Artist"
    "1784-01-01" (Some "oil on canvas")
    (Some [("h_cm", SInt 120); ("w_cm", SInt 90)]) []
    [mkArtifactVersion (new_id "ver" (hex_ver d)) (now d)
       "Initial catalog entry" [("condition", SStr "fair")]]
    [new_id "dig" (hex_dig d)] [new_id "cons" (hex_cons d)]
    [new_id "loan" (hex_loan d)].

Definition demo_dig_of (d : Draws) : DigitalSurrogate :=
  mkDigitalSurrogate (new_id "dig" (hex_dig d)) "marina_highres.tif" "tif"
    (Some (new_id "art" (hex_art d))).

Definition demo_cons_of (d : Draws) : ConservationRecord :=
  mkConservationRecord (new_id "cons" (hex_cons d)) "2023-08-15"
    (new_id "person" (hex_person d)) "cleaning and varnish removal"
    [new_id "dig" (hex_dig d)] [].

Definition demo_loan_of (d : Draws) : Loan :=
  mkLoan (new_id "loan" (hex_loan d)) (new_id "art" (hex_art d))
    (new_id "inst" (hex_inst1 d)) (new_id "inst" (hex_inst2 d))
    "2024-01-10" "2024-04-10" "ACTIVE".

(** The part of [demo()] after the last [put]. *)
Definition demo_reads (d : Draws) : M DemoOutput :=
  let* a := get "artifacts" (VStr (new_id "art" (hex_art d))) in
  let* st := call_display_status a TheShelf in
  let* found := query_artifacts_by_material "oil" in
  let* lines1 := lift (mapR artifact_line found) in
  let* found2 :=
    query_conservation_by_restorer (new_id "person" (hex_person d)) in
  let* lines2 := lift (mapR conservation_line found2) in
  let* dg := get "digital" (VStr (new_id "dig" (hex_dig d))) in
  let* pv := lift (call_preview_info dg) in
  ret (mkDemoOutput st lines1 lines2 pv).

(** What a run of [demo()] on a new file prints. *)
Definition demo_expected (d : Draws) : DemoOutput :=
  {| out_status :=
       {| st_artifact_id := new_id "art" (hex_art d);
          st_title := "Portrait of Marina";
          st_on_loan := true;
          st_loan_ref := Some (new_id "loan" (hex_loan d));
          st_current_version := Some (new_id "ver" (hex_ver d));
          st_last_conservation := Some (new_id "cons" (hex_cons d)) |};
     out_by_material :=
       [(new_id "art" (hex_art d), "Portrait of Marina", Some "oil on canvas")];
     out_by_restorer :=
       [(new_id "cons" (hex_cons d), "2023-08-15",
         "cleaning and varnish removal")];
     out_preview := preview_info (demo_dig_of d) |}.

(** The collections the reading part of [demo()] looks at, as the seven
    [put]s leave them on a new file. *)
Definition demo_views (d : Draws) (sh : Shelf) : Prop :=
  cache_on_file sh /\
  shelf_view sh "artifacts"
  = Some [(new_id "art" (hex_art d), VArtifact (demo_art_of d))] /\
  shelf_view sh "digital"
  = Some [(new_id "dig" (hex_dig d), VSurrogate (demo_dig_of d))] /\
  shelf_view sh "conservations"
  = Some [(new_id "cons" (hex_cons d), VConservation (demo_cons_of d))] /\
  shelf_view sh "loans"
  = Some [(new_id "loan" (hex_loan d), VLoan (demo_loan_of d))].

End Model.
(* ===================================================================== *)
(** ** Lemmas: the order on strings                                       *)
(* ===================================================================== *)

Module StrOrder.

Lemma ascii_compare_refl (c : ascii) : Ascii.compare c c = Eq.
Proof. unfold Ascii.compare. apply N.compare_refl. Qed.

Lemma ascii_lt_trans (a b c : ascii) :
  Ascii.compare a b = Lt -> Ascii.compare b c = Lt -> Ascii.compare a c = Lt.
Proof.
  unfold Ascii.compare. rewrite !N.compare_lt_iff. apply N.lt_trans.
Qed.

Lemma compare_refl (s : string) : String.compare s s = Eq.
Proof.
  induction s as [|c s IH]; simpl; [done|].
  by rewrite ascii_compare_refl.
Qed.

Lemma compare_lt_trans (a b c : string) :
  String.compare a b = Lt -> String.compare b c = Lt ->
  String.compare a c = Lt.
Proof.
  revert b c. induction a as [|x a IH]; intros [|y b] [|z c]; simpl;
    try done.
  destruct (Ascii.compare x y) eqn:Hxy; try done;
    destruct (Ascii.compare y z) eqn:Hyz; try done; intros Hab Hbc.
  - apply Ascii.compare_eq_iff in Hxy, Hyz. subst.
    rewrite ascii_compare_refl. eauto.
  - apply Ascii.compare_eq_iff in Hxy. subst. by rewrite Hyz.
  - apply Ascii.compare_eq_iff in Hyz. subst. by rewrite Hxy.
  - by rewrite (ascii_lt_trans _ _ _ Hxy Hyz).
Qed.

Lemma ltb_irrefl (s : string) : String.ltb s s = false.
Proof. unfold String.ltb. by rewrite compare_refl. Qed.

Lemma ltb_trans (a b c : string) :
  String.ltb a b = true -> String.ltb b c = true -> String.ltb a c = true.
Proof.
  unfold String.ltb. intros Hab Hbc.
  destruct (String.compare a b) eqn:E1; try done.
  destruct (String.compare b c) eqn:E2; try done.
  by rewrite (compare_lt_trans _ _ _ E1 E2).
Qed.

(** [a <= b] is [not (b < a)], which is how a sort that only calls [<]
    sees it. *)
Lemma leb_ltb (a b : string) : String.leb a b = negb (String.ltb b a).
Proof.
  unfold String.leb, String.ltb. rewrite (String.compare_antisym b a).
  by destruct (String.compare a b).
Qed.

Lemma trichotomy (a b : string) :
  String.ltb a b = true \/ a = b \/ String.ltb b a = true.
Proof.
  unfold String.ltb. rewrite (String.compare_antisym b a).
  destruct (String.compare a b) eqn:E; simpl; auto.
  apply String.compare_eq_iff in E. auto.
Qed.

Lemma le_lt_trans (a b c : string) :
  String.ltb b a = false -> String.ltb b c = true -> String.ltb a c = true.
Proof.
  intros Hab Hbc. destruct (trichotomy a b) as [H|[->|H]]; [|done|congruence].
  by apply ltb_trans with b.
Qed.

Lemma lt_le_trans (a b c : string) :
  String.ltb a b = true -> String.ltb c b = false -> String.ltb a c = true.
Proof.
  intros Hab Hbc. destruct (trichotomy b c) as [H|[<-|H]]; [|done|congruence].
  by apply ltb_trans with b.
Qed.

Lemma le_trans (a b c : string) :
  String.ltb b a = false -> String.ltb c b = false -> String.ltb c a = false.
Proof.
  intros Hab Hbc. destruct (String.ltb c a) eqn:E; [|done].
  by rewrite (lt_le_trans c a b E Hab) in Hbc.
Qed.

End StrOrder.

(* ===================================================================== *)
(** ** Lemmas: [sorted] and its last element                              *)
(* ===================================================================== *)

Section SortedFacts.
Context {A : Type} (key : A -> string).

Lemma sorted_insert_perm (x : A) (l : list A) :
  sorted_insert key x l ≡ₚ x :: l.
Proof.
  induction l as [|y l IH]; simpl; [done|].
  destruct (String.ltb (key y) (key x)); [|done].
  rewrite IH. apply Permutation_swap.
Qed.

Lemma sorted_perm (l : list A) : sorted key l ≡ₚ l.
Proof.
  induction l as [|x l IH]; simpl; [done|].
  by rewrite sorted_insert_perm, IH.
Qed.

Lemma sorted_elem_of (x : A) (l : list A) : x ∈ sorted key l <-> x ∈ l.
Proof. by rewrite sorted_perm. Qed.

Lemma sorted_insert_sorted (x : A) (l : list A) :
  StronglySorted (key_le key) l -> StronglySorted (key_le key) (sorted_insert key x l).
Proof.
  induction 1 as [|y l Hl IH Hy]; simpl.
  - repeat constructor.
  - destruct (String.ltb (key y) (key x)) eqn:E.
    + constructor; [done|].
      rewrite sorted_insert_perm. constructor; [|done].
      unfold key_le. destruct (StrOrder.trichotomy (key x) (key y))
        as [H|[H|H]]; try congruence.
      * pose proof (StrOrder.ltb_trans _ _ _ H E) as Hc.
        by rewrite StrOrder.ltb_irrefl in Hc.
      * rewrite H in E. by rewrite StrOrder.ltb_irrefl in E.
      * destruct (String.ltb (key x) (key y)) eqn:E'; [|done].
        pose proof (StrOrder.ltb_trans _ _ _ E' E) as Hc.
        by rewrite StrOrder.ltb_irrefl in Hc.
    + constructor; [by constructor|].
      constructor; [done|].
      eapply Forall_impl; [exact Hy|]. intros z Hz. unfold key_le in *.
      by apply StrOrder.le_trans with (key y).
Qed.

(** The result is ascending by key. *)
Lemma sorted_sorted (l : list A) : StronglySorted (key_le key) (sorted key l).
Proof.
  induction l as [|x l IH]; simpl; [constructor|].
  by apply sorted_insert_sorted.
Qed.

(** The sort is stable: elements sharing a key keep their input order. *)
Lemma sorted_stable (k : string) (l : list A) :
  List.filter (fun x => String.eqb (key x) k) (sorted key l)
  = List.filter (fun x => String.eqb (key x) k) l.
Proof.
  induction l as [|x l IH]; simpl; [done|].
  rewrite <- IH. generalize (sorted key l). clear IH. intros s.
  induction s as [|y s IHs]; simpl; [done|].
  destruct (String.ltb (key y) (key x)) eqn:E; simpl; [|done].
  rewrite IHs.
  destruct (String.eqb_spec (key x) k) as [Hx|Hx];
    destruct (String.eqb_spec (key y) k) as [Hy|Hy]; try done.
  rewrite Hx, Hy in E. by rewrite StrOrder.ltb_irrefl in E.
Qed.

Lemma last_sorted_insert (x : A) (l : list A) :
  StronglySorted (key_le key) l ->
  last (sorted_insert key x l)
  = match last l with
    | None => Some x
    | Some m => if String.ltb (key m) (key x) then Some x else Some m
    end.
Proof.
  induction 1 as [|y l Hl IH Hy]; simpl; [done|].
  destruct (String.ltb (key y) (key x)) eqn:E.
  - rewrite !last_cons, IH.
    destruct (last l) as [m|]; [|by rewrite E].
    by destruct (String.ltb (key m) (key x)).
  - rewrite (last_cons x). destruct (last (y :: l)) as [m|] eqn:Hm; [|done].
    assert (key_le key y m) as Hym.
    { rewrite last_cons in Hm. destruct (last l) as [m'|] eqn:Hm'.
      - inversion Hm; subst. rewrite Forall_forall in Hy. apply Hy.
        apply last_Some in Hm' as [l' ->]. set_solver.
      - inversion Hm; subst. unfold key_le. apply StrOrder.ltb_irrefl. }
    unfold key_le in Hym.
    by rewrite (StrOrder.le_trans _ _ _ E Hym).
Qed.

(** The last element of the sorted list is the element of greatest key
    that stands last among those of that key. *)
Lemma last_sorted_decomp (l1 l2 : list A) (x : A) :
  Forall (fun u => key_le key u x) l1 ->
  Forall (fun u => key_lt key u x) l2 ->
  last (sorted key (l1 ++ x :: l2)) = Some x.
Proof.
  intros H1 H2. induction H1 as [|u l1 Hu H1 IH]; simpl.
  - rewrite last_sorted_insert by apply sorted_sorted.
    destruct (last (sorted key l2)) as [m|] eqn:Hm; [|done].
    apply last_Some in Hm as [l' Hl'].
    assert (m ∈ l2) as Hin.
    { apply sorted_elem_of. rewrite Hl'. set_solver. }
    rewrite Forall_forall in H2. by rewrite (H2 m Hin).
  - rewrite last_sorted_insert by apply sorted_sorted.
    fold (sorted key (l1 ++ x :: l2)). rewrite IH.
    unfold key_le in Hu. by rewrite Hu.
Qed.

(** Every non-empty list splits around such an element. *)
Lemma greatest_last_exists (l : list A) :
  l <> [] ->
  exists l1 x l2,
    l = l1 ++ x :: l2 /\
    Forall (fun u => key_le key u x) l1 /\
    Forall (fun u => key_lt key u x) l2.
Proof.
  induction l as [|u l IH]; [done|]. intros _.
  destruct l as [|u' l'].
  { exists [], u, []. by repeat split. }
  destruct IH as (l1 & x & l2 & Hl & H1 & H2); [done|].
  destruct (String.ltb (key x) (key u)) eqn:E.
  - exists [], u, (u' :: l'). split; [done|]. split; [constructor|].
    rewrite Hl. apply Forall_app. split; [|constructor; [done|]].
    + eapply Forall_impl; [exact H1|]. intros z Hz.
      unfold key_lt, key_le in *. by apply StrOrder.le_lt_trans with (key x).
    + eapply Forall_impl; [exact H2|]. intros z Hz.
      unfold key_lt in *. by apply StrOrder.ltb_trans with (key x).
  - exists (u :: l1), x, l2. rewrite Hl. split; [done|].
    split; [|done]. by constructor.
Qed.

Lemma last_sorted_greatest (l : list A) :
  l <> [] ->
  exists l1 x l2,
    l = l1 ++ x :: l2 /\
    Forall (fun u => key_le key u x) l1 /\
    Forall (fun u => key_lt key u x) l2 /\
    last (sorted key l) = Some x.
Proof.
  intros Hl. destruct (greatest_last_exists l Hl) as (l1 & x & l2 & -> & H1 & H2).
  exists l1, x, l2. repeat split; try done. by apply last_sorted_decomp.
Qed.
End SortedFacts.

(* ===================================================================== *)
(** ** Lemmas: dictionaries                                               *)
(* ===================================================================== *)

Section DictFacts.
Context {V : Type}.
Implicit Types (d : list (string * V)) (k : string) (v : V).

Lemma dict_get_set_eq k v d : dict_get k (dict_set k v d) = Some v.
Proof.
  induction d as [|[k' v'] d IH]; simpl.
  - by rewrite String.eqb_refl.
  - destruct (String.eqb k k') eqn:E; simpl; [by rewrite String.eqb_refl|].
    by rewrite E.
Qed.

Lemma dict_get_set_ne k k' v d :
  k <> k' -> dict_get k' (dict_set k v d) = dict_get k' d.
Proof.
  intros Hne. induction d as [|[k0 v0] d IH]; simpl.
  - destruct (String.eqb_spec k' k); [congruence|done].
  - destruct (String.eqb_spec k k0) as [->|Hk]; simpl.
    + by destruct (String.eqb_spec k' k0); [congruence|].
    + by rewrite IH.
Qed.

End DictFacts.

Section Proofs.
Context `{Lower : StrLower}.

(* ===================================================================== *)
(** ** Lemmas: the shelf                                                  *)
(* ===================================================================== *)

Lemma shelf_contains_true k sh :
  shelf_contains k sh = true <-> is_Some (disk sh !! k).
Proof. unfold shelf_contains. by rewrite bool_decide_eq_true. Qed.

Lemma shelf_contains_false k sh :
  shelf_contains k sh = false <-> disk sh !! k = None.
Proof.
  unfold shelf_contains. rewrite bool_decide_eq_false.
  by rewrite eq_None_not_Some.
Qed.

Lemma shelf_getitem_fst k sh :
  fst (shelf_getitem k sh)
  = match shelf_view sh k with Some c => Ok c | None => Raise KeyError end.
Proof.
  unfold shelf_getitem, shelf_view.
  destruct (cache sh !! k); [done|]. by destruct (disk sh !! k).
Qed.

Lemma shelf_getitem_loads k sh : loads sh (snd (shelf_getitem k sh)).
Proof.
  unfold shelf_getitem, loads.
  destruct (cache sh !! k) as [c|] eqn:Hc; simpl; [by auto|].
  destruct (disk sh !! k) as [c|] eqn:Hd; simpl; [|by auto].
  split; [done|]. intros k'. destruct (decide (k = k')) as [<-|Hne].
  - right. by rewrite lookup_insert_eq.
  - left. by rewrite lookup_insert_ne.
Qed.

Lemma loads_refl sh : loads sh sh.
Proof. split; auto. Qed.

Lemma loads_trans sh1 sh2 sh3 : loads sh1 sh2 -> loads sh2 sh3 -> loads sh1 sh3.
Proof.
  intros [Hd1 Hc1] [Hd2 Hc2]. split; [congruence|]. intros k.
  destruct (Hc1 k) as [H1|[H1 H1']], (Hc2 k) as [H2|[H2 H2']].
  - left. congruence.
  - right. split; congruence.
  - right. split; congruence.
  - right. split; congruence.
Qed.

(** Loading entries into the cache changes nothing a reader can see. *)
Lemma loads_view sh sh' k : loads sh sh' -> shelf_view sh' k = shelf_view sh k.
Proof.
  intros [Hd Hc]. unfold shelf_view. rewrite Hd.
  destruct (Hc k) as [->|[-> ->]]; [done|]. by destruct (disk sh !! k).
Qed.

Lemma loads_contains sh sh' k :
  loads sh sh' -> shelf_contains k sh' = shelf_contains k sh.
Proof. intros [Hd _]. unfold shelf_contains. by rewrite Hd. Qed.

Lemma loads_close sh sh' : loads sh sh' -> close sh' = close sh.
Proof.
  intros [Hd Hc]. unfold close, shelf_sync. simpl. rewrite Hd.
  apply map_eq. intros k. rewrite !lookup_union.
  destruct (Hc k) as [->|[-> ->]]; [done|].
  by destruct (disk sh !! k).
Qed.

Lemma shelf_sync_view sh k :
  shelf_view (snd (shelf_sync sh)) k = shelf_view sh k.
Proof.
  unfold shelf_view, shelf_sync. simpl. rewrite lookup_empty, lookup_union.
  by destruct (cache sh !! k), (disk sh !! k).
Qed.

Lemma shelf_get_fst k dflt sh :
  fst (shelf_get k dflt sh) = Ok (collection_of k dflt sh).
Proof.
  unfold shelf_get, collection_of.
  destruct (shelf_contains k sh) eqn:E; [|done].
  rewrite shelf_getitem_fst. apply shelf_contains_true in E as [c Hc].
  unfold shelf_view. rewrite Hc. by destruct (cache sh !! k).
Qed.

Lemma shelf_get_loads k dflt sh : loads sh (snd (shelf_get k dflt sh)).
Proof.
  unfold shelf_get. destruct (shelf_contains k sh).
  - apply shelf_getitem_loads.
  - apply loads_refl.
Qed.

Lemma loads_collection_of sh sh' k dflt :
  loads sh sh' -> collection_of k dflt sh' = collection_of k dflt sh.
Proof.
  intros H. unfold collection_of.
  by rewrite (loads_contains _ _ _ H), (loads_view _ _ _ H).
Qed.

(* ===================================================================== *)
(** ** Lemmas: running [bind]                                             *)
(* ===================================================================== *)

Lemma bind_ok {A B : Type} (m : M A) (f : A -> M B) sh a :
  fst (m sh) = Ok a -> bind m f sh = f a (snd (m sh)).
Proof. unfold bind. destruct (m sh) as [[a'|e] sh']; simpl; congruence. Qed.

Lemma bind_raise {A B : Type} (m : M A) (f : A -> M B) sh e :
  fst (m sh) = Raise e -> bind m f sh = (Raise e, snd (m sh)).
Proof. unfold bind. destruct (m sh) as [[a'|e'] sh']; simpl; congruence. Qed.

(* ===================================================================== *)
(** ** Lemmas: [get] and [put]                                            *)
(* ===================================================================== *)

Lemma get_fst C key sh :
  fst (get C key sh)
  = match key with
    | VNone => Ok (VDict (collection_of C [] sh))
    | _ => pydict_get (collection_of C [] sh) key
    end.
Proof.
  unfold get. rewrite (bind_ok _ _ _ _ (shelf_get_fst C [] sh)).
  by destruct key.
Qed.

Lemma get_str_fst C k sh :
  fst (get C (VStr k) sh)
  = Ok (default VNone (dict_get k (collection_of C [] sh))).
Proof. by rewrite get_fst. Qed.

Lemma get_all_fst C sh :
  fst (get C VNone sh) = Ok (VDict (collection_of C [] sh)).
Proof. by rewrite get_fst. Qed.

Lemma get_loads C key sh : loads sh (snd (get C key sh)).
Proof.
  unfold get. rewrite (bind_ok _ _ _ _ (shelf_get_fst C [] sh)).
  destruct key; apply shelf_get_loads.
Qed.

(** [update_title_index] as one step on the cache entry of ['indexes']. *)
Lemma update_title_index_unfold key obj sh :
  update_title_index key obj sh
  = match shelf_view sh "indexes" with
    | None => (Raise KeyError, sh)
    | Some indexes =>
        let indexes1 :=
          match dict_get "by_title" indexes with
          | Some _ => indexes
          | None => dict_set "by_title" (VDict []) indexes
          end in
        let idx := default VNone (dict_get "by_title" indexes1) in
        let sh1 := mkShelf (disk sh) (<["indexes" := indexes1]> (cache sh)) in
        match attr_title obj with
        | Raise e => (Raise e, sh1)
        | Ok t =>
            match value_setitem idx (lower t) (VStr key) with
            | Raise e => (Raise e, sh1)
            | Ok idx' =>
                (Ok tt,
                 mkShelf (disk sh)
                   (<["indexes" := dict_set "by_title" idx' indexes1]>
                      (cache sh)))
            end
        end
    end.
Proof.
  unfold update_title_index, shelf_view, bind, shelf_getitem, shelf_mutate,
    ret, lift.
  destruct sh as [dk ch]; simpl.
  destruct (ch !! "indexes") as [ix|] eqn:Hc; simpl.
  - destruct (dict_get "by_title" ix) eqn:Hb; simpl.
    + rewrite Hb; simpl. rewrite (insert_id ch "indexes" ix Hc).
      destruct (attr_title obj); simpl; [|done].
      by destruct (value_setitem _ _ _).
    + destruct (attr_title obj); simpl; [|done].
      destruct (value_setitem _ _ _); simpl; [|done].
      by rewrite insert_insert_eq.
  - destruct (dk !! "indexes") as [ix|] eqn:Hd; simpl; [|done].
    destruct (dict_get "by_title" ix) eqn:Hb; simpl.
    + rewrite Hb; simpl.
      destruct (attr_title obj); simpl; [|done].
      destruct (value_setitem _ _ _); simpl; [|done].
      by rewrite insert_insert_eq.
    + rewrite insert_insert_eq.
      destruct (attr_title obj); simpl; [|done].
      destruct (value_setitem _ _ _); simpl; [|done].
      by rewrite insert_insert_eq.
Qed.

(** [put] on a collection the shelf does not have. *)
Lemma put_absent C k r sh :
  shelf_view sh C = None -> put C k r sh = (Raise KeyError, sh).
Proof.
  intros Hv. unfold put.
  assert (shelf_getitem C sh = (Raise KeyError, sh)) as Hg.
  { unfold shelf_getitem, shelf_view in *. destruct (cache sh !! C); [done|].
    by rewrite Hv. }
  unfold bind at 1. by rewrite Hg.
Qed.

(** [put] on a collection the shelf has. *)
Lemma put_unfold C k r sh col :
  shelf_view sh C = Some col ->
  put C k r sh
  = let sh2 := mkShelf (disk sh) (<[C := dict_set k r col]> (cache sh)) in
    if String.eqb C "artifacts" then
      match update_title_index k r sh2 with
      | (Ok _, sh3) => shelf_sync sh3
      | (Raise e, sh3) => (Raise e, sh3)
      end
    else shelf_sync sh2.
Proof.
  intros Hv. unfold put.
  assert (shelf_getitem C sh
          = (Ok col, mkShelf (disk sh) (<[C := col]> (cache sh)))) as Hg.
  { unfold shelf_getitem, shelf_view in *.
    destruct (cache sh !! C) eqn:Hc.
    - inversion Hv; subst. rewrite (insert_id _ _ _ Hc). by destruct sh.
    - by rewrite Hv. }
  unfold bind at 1. rewrite Hg. unfold bind at 1. unfold shelf_mutate at 1.
  simpl. rewrite insert_insert_eq.
  destruct (String.eqb C "artifacts"); unfold bind, save, ret; simpl; [|done].
  by destruct (update_title_index _ _ _) as [[[]|e] sh3].
Qed.

Lemma view_of_disk sh k :
  is_Some (disk sh !! k) -> is_Some (shelf_view sh k).
Proof.
  intros [c Hc]. unfold shelf_view. rewrite Hc. destruct (cache sh !! k); eauto.
Qed.

Lemma sync_disk_mono sh k :
  is_Some (disk sh !! k) -> is_Some (disk (snd (shelf_sync sh)) !! k).
Proof.
  intros H. unfold shelf_sync. simpl. apply lookup_union_is_Some. auto.
Qed.

(** [update_title_index] leaves the file alone and changes at most the
    cache entry of ['indexes']. *)
Lemma update_title_index_state key obj sh :
  snd (update_title_index key obj sh) = sh \/
  exists ix, snd (update_title_index key obj sh)
             = mkShelf (disk sh) (<["indexes" := ix]> (cache sh)).
Proof.
  rewrite update_title_index_unfold.
  destruct (shelf_view sh "indexes"); simpl; [|by left].
  destruct (attr_title obj); simpl; [|by eauto].
  destruct (value_setitem _ _ _); simpl; by eauto.
Qed.

Lemma view_insert_cache_ne dk ch k k' c :
  k <> k' ->
  shelf_view (mkShelf dk (<[k := c]> ch)) k' = shelf_view (mkShelf dk ch) k'.
Proof. intros Hne. unfold shelf_view. simpl. by rewrite lookup_insert_ne. Qed.

Lemma view_insert_cache_eq dk ch k c :
  shelf_view (mkShelf dk (<[k := c]> ch)) k = Some c.
Proof. unfold shelf_view. simpl. by rewrite lookup_insert_eq. Qed.

Lemma update_title_index_view key obj sh k :
  k <> "indexes" ->
  shelf_view (snd (update_title_index key obj sh)) k = shelf_view sh k.
Proof.
  intros Hne.
  destruct (update_title_index_state key obj sh) as [->|[ix ->]]; [done|].
  rewrite view_insert_cache_ne by done. by destruct sh.
Qed.

Lemma update_title_index_disk key obj sh :
  disk (snd (update_title_index key obj sh)) = disk sh.
Proof.
  by destruct (update_title_index_state key obj sh) as [->|[ix ->]].
Qed.

(** After [put], raised or not, the collection holds the record, and no
    collection has left the file. *)
Lemma put_view_same C k r sh col :
  shelf_view sh C = Some col ->
  shelf_view (snd (put C k r sh)) C = Some (dict_set k r col).
Proof.
  intros Hv. rewrite (put_unfold _ _ _ _ _ Hv). cbv zeta.
  destruct (String.eqb_spec C "artifacts") as [->|Hne].
  - set (sh2 := mkShelf _ _).
    pose proof (update_title_index_view k r sh2 "artifacts") as Hu.
    destruct (update_title_index k r sh2) as [[[]|e] sh3]; cbn [fst snd] in *.
    + rewrite shelf_sync_view, Hu by done. apply view_insert_cache_eq.
    + rewrite Hu by done. apply view_insert_cache_eq.
  - rewrite shelf_sync_view. apply view_insert_cache_eq.
Qed.

Lemma put_disk_mono C k r sh c :
  is_Some (disk sh !! c) -> is_Some (disk (snd (put C k r sh)) !! c).
Proof.
  intros Hc. destruct (shelf_view sh C) as [col|] eqn:Hv.
  - rewrite (put_unfold _ _ _ _ _ Hv). cbv zeta.
    destruct (String.eqb C "artifacts").
    + set (sh2 := mkShelf _ _).
      pose proof (update_title_index_disk k r sh2) as Hu.
      destruct (update_title_index k r sh2) as [[[]|e] sh3]; cbn [fst snd] in *.
      * apply sync_disk_mono. by rewrite Hu.
      * by rewrite Hu.
    + by apply sync_disk_mono.
  - by rewrite (put_absent _ _ _ _ Hv).
Qed.

Lemma put_ok_other C k r sh col :
  shelf_view sh C = Some col -> C <> "artifacts" ->
  fst (put C k r sh) = Ok tt.
Proof.
  intros Hv Hne. rewrite (put_unfold _ _ _ _ _ Hv). cbv zeta.
  by destruct (String.eqb_spec C "artifacts").
Qed.

Lemma collection_of_present C sh col :
  is_Some (disk sh !! C) -> shelf_view sh C = Some col ->
  collection_of C [] sh = col.
Proof.
  intros Hd Hv. unfold collection_of.
  apply shelf_contains_true in Hd. by rewrite Hd, Hv.
Qed.

(* ===================================================================== *)
(** ** Round trip of [put] and [get]                                      *)
(* ===================================================================== *)

(** C1.  For a collection [C] the store has ([C in self._shelf]), any key
    [k] and any record [r]: after [put(C, k, r)], [get(C, k)] returns [r].
    This holds whether or not [put] raised on its way (the record is
    assigned before the title index is touched); on a collection other
    than ['artifacts'], [put] does not raise. *)
Theorem put_get_round_trip (sh : Shelf) (C k : string) (r : Value) :
  is_Some (disk sh !! C) ->
  fst (get C (VStr k) (snd (put C k r sh))) = Ok r /\
  (C <> "artifacts" -> fst (put C k r sh) = Ok tt).
Proof.
  intros Hd. destruct (view_of_disk _ _ Hd) as [col Hv]. split.
  - rewrite get_str_fst.
    rewrite (collection_of_present C _ (dict_set k r col)).
    + by rewrite dict_get_set_eq.
    + by apply put_disk_mono.
    + by apply put_view_same.
  - intros Hne. by apply put_ok_other with col.
Qed.

(* ===================================================================== *)
(** ** [get] never raises on a string key                                 *)
(* ===================================================================== *)

(** C6.  With a string key, [get] returns the stored record, and [None]
    when the collection or the key is missing; without a key it returns
    the whole collection, which is empty when the collection is missing
    (or holds nothing).  Neither call raises. *)
Theorem get_never_raises (sh : Shelf) (C k : string) :
  (exists v, fst (get C (VStr k) sh) = Ok v) /\
  (disk sh !! C = None -> fst (get C (VStr k) sh) = Ok VNone) /\
  (forall col, shelf_view sh C = Some col -> dict_get k col = None ->
     fst (get C (VStr k) sh) = Ok VNone) /\
  (forall col v, is_Some (disk sh !! C) -> shelf_view sh C = Some col ->
     dict_get k col = Some v -> fst (get C (VStr k) sh) = Ok v) /\
  (exists col, fst (get C VNone sh) = Ok (VDict col) /\
     (disk sh !! C = None -> col = []) /\
     (forall c, is_Some (disk sh !! C) -> shelf_view sh C = Some c -> col = c)).
Proof.
  rewrite !get_str_fst, get_all_fst. repeat split.
  - eauto.
  - intros Hd. unfold collection_of.
    apply shelf_contains_false in Hd. by rewrite Hd.
  - intros col Hv Hk. unfold collection_of.
    destruct (shelf_contains C sh); [|done]. rewrite Hv. simpl. by rewrite Hk.
  - intros col v Hd Hv Hk. rewrite (collection_of_present _ _ _ Hd Hv).
    by rewrite Hk.
  - exists (collection_of C [] sh). split; [done|]. split.
    + intros Hd. unfold collection_of.
      apply shelf_contains_false in Hd. by rewrite Hd.
    + intros c Hd Hv. by apply collection_of_present.
Qed.

(* ===================================================================== *)
(** ** Opening the store                                                  *)
(* ===================================================================== *)

Lemma bool_decide_cons_ne (k c : string) (cols : list string) :
  c <> k -> bool_decide (k ∈ c :: cols) = bool_decide (k ∈ cols).
Proof.
  intros Hne. apply bool_decide_ext. rewrite elem_of_cons.
  split; [|by auto]. intros [->|?]; [done|done].
Qed.

Lemma ensure_collections_ok cols sh : fst (ensure_collections cols sh) = Ok tt.
Proof.
  revert sh. induction cols as [|c cols IH]; intros sh; simpl; [done|].
  unfold bind, ensure_collection, shelf_setitem.
  destruct (shelf_contains c sh); apply IH.
Qed.

Lemma ensure_collections_disk cols sh k :
  disk (snd (ensure_collections cols sh)) !! k
  = match disk sh !! k with
    | Some c => Some c
    | None => if bool_decide (k ∈ cols) then Some [] else None
    end.
Proof.
  revert sh. induction cols as [|c cols IH]; intros sh; simpl.
  - by destruct (disk sh !! k).
  - unfold bind, ensure_collection, shelf_setitem.
    destruct (shelf_contains c sh) eqn:Hc; rewrite IH; simpl.
    + destruct (disk sh !! k) eqn:Hk; [done|].
      apply shelf_contains_true in Hc.
      rewrite bool_decide_cons_ne; [done|].
      intros ->. rewrite Hk in Hc. by destruct Hc.
    + apply shelf_contains_false in Hc.
      destruct (decide (c = k)) as [->|Hne].
      * rewrite lookup_insert_eq, Hc.
        rewrite bool_decide_eq_true_2; [done|]. left.
      * rewrite lookup_insert_ne by done.
        destruct (disk sh !! k); [done|].
        by rewrite bool_decide_cons_ne.
Qed.

Lemma ensure_collections_cache cols sh k :
  cache (snd (ensure_collections cols sh)) !! k
  = match disk sh !! k with
    | Some _ => cache sh !! k
    | None => if bool_decide (k ∈ cols) then Some [] else cache sh !! k
    end.
Proof.
  revert sh. induction cols as [|c cols IH]; intros sh; simpl.
  - by destruct (disk sh !! k).
  - unfold bind, ensure_collection, shelf_setitem.
    destruct (shelf_contains c sh) eqn:Hc; rewrite IH; simpl.
    + destruct (disk sh !! k) eqn:Hk; [done|].
      apply shelf_contains_true in Hc.
      rewrite bool_decide_cons_ne; [done|].
      intros ->. rewrite Hk in Hc. by destruct Hc.
    + apply shelf_contains_false in Hc.
      destruct (decide (c = k)) as [->|Hne].
      * rewrite !lookup_insert_eq, Hc.
        rewrite bool_decide_eq_true_2; [done|]. left.
      * rewrite !lookup_insert_ne by done.
        destruct (disk sh !! k); [done|].
        by rewrite bool_decide_cons_ne.
Qed.

(** What a reader sees after the loop of [_open_db]. *)
Lemma ensure_collections_view cols sh k :
  shelf_view (snd (ensure_collections cols sh)) k
  = match disk sh !! k with
    | Some _ => shelf_view sh k
    | None => if bool_decide (k ∈ cols) then Some [] else shelf_view sh k
    end.
Proof.
  unfold shelf_view.
  rewrite ensure_collections_cache, ensure_collections_disk.
  destruct (disk sh !! k); [done|]. by destruct (bool_decide _).
Qed.

(** [_open_db] as the loop followed by one step on ['indexes']. *)
Lemma _open_db_unfold sh :
  let sh1 := snd (ensure_collections COLLECTIONS sh) in
  exists indexes,
    shelf_view sh1 "indexes" = Some indexes /\
    fst (_open_db sh) = Ok tt /\
    disk (snd (_open_db sh)) = disk sh1 /\
    (forall k, k <> "indexes" ->
       cache (snd (_open_db sh)) !! k = cache sh1 !! k) /\
    shelf_view (snd (_open_db sh)) "indexes"
    = Some (if dict_mem "by_title" indexes then indexes
            else dict_set "by_title" (VDict []) indexes).
Proof.
  intros sh1.
  assert (is_Some (disk sh1 !! "indexes")) as Hd.
  { unfold sh1. rewrite ensure_collections_disk.
    destruct (disk sh !! "indexes"); [eauto|].
    rewrite bool_decide_eq_true_2; [eauto|]. unfold COLLECTIONS. set_solver. }
  destruct (view_of_disk _ _ Hd) as [indexes Hv]. exists indexes.
  split; [done|].
  unfold _open_db.
  rewrite (bind_ok _ _ _ _ (ensure_collections_ok COLLECTIONS sh)).
  fold sh1.
  pose proof (shelf_getitem_fst "indexes" sh1) as Hg. rewrite Hv in Hg.
  rewrite (bind_ok _ _ _ _ Hg).
  pose proof (shelf_getitem_loads "indexes" sh1) as Hl.
  set (sh2 := snd (shelf_getitem "indexes" sh1)) in *.
  destruct (dict_mem "by_title" indexes) eqn:Hm.
  - unfold ret. simpl. destruct Hl as [Hl1 Hl2]. repeat split; try done.
    + intros k Hk. unfold sh2, shelf_getitem.
      destruct (cache sh1 !! "indexes"); [done|].
      destruct (disk sh1 !! "indexes"); simpl; [|done].
      by rewrite lookup_insert_ne.
    + rewrite (loads_view sh1 sh2); [done|]. by split.
  - pose proof (shelf_getitem_fst "indexes" sh2) as Hg2.
    rewrite (loads_view _ _ _ Hl), Hv in Hg2.
    rewrite (bind_ok _ _ _ _ Hg2).
    pose proof (shelf_getitem_loads "indexes" sh2) as Hl'.
    pose proof (loads_trans _ _ _ Hl Hl') as [Hd3 Hc3].
    unfold shelf_mutate. simpl. repeat split; try done.
    + intros k Hk. rewrite lookup_insert_ne by done.
      unfold sh2, shelf_getitem.
      destruct (cache sh1 !! "indexes") eqn:E1; simpl.
      * by rewrite E1.
      * destruct (disk sh1 !! "indexes") eqn:E2; simpl.
        -- rewrite lookup_insert_eq. simpl. by rewrite lookup_insert_ne.
        -- by rewrite E1, E2.
    + apply view_insert_cache_eq.
Qed.

Lemma close_lookup sh k : close sh !! k = shelf_view sh k.
Proof.
  unfold close, shelf_sync, shelf_view. simpl. rewrite lookup_union.
  by destruct (cache sh !! k), (disk sh !! k).
Qed.

Lemma indexes_in_COLLECTIONS : "indexes" ∈ COLLECTIONS.
Proof. unfold COLLECTIONS. set_solver. Qed.

(** The collections a reader finds after [SimpleOODB(filename)], in terms
    of what the file held. *)
Lemma open_view file k :
  shelf_view (snd (SimpleOODB file)) k
  = if decide (k = "indexes") then
      let ix := default [] (file !! "indexes") in
      Some (if dict_mem "by_title" ix then ix
            else dict_set "by_title" (VDict []) ix)
    else
      match file !! k with
      | Some c => Some c
      | None => if bool_decide (k ∈ COLLECTIONS) then Some [] else None
      end.
Proof.
  unfold SimpleOODB.
  destruct (_open_db_unfold (shelve_open file))
    as (indexes & Hix & _ & Hd & Hc & Hv).
  assert (forall k', shelf_view (snd (ensure_collections COLLECTIONS
                                        (shelve_open file))) k'
                     = match file !! k' with
                       | Some c => Some c
                       | None => if bool_decide (k' ∈ COLLECTIONS)
                                 then Some [] else None
                       end) as Hview.
  { intros k'. rewrite ensure_collections_view. unfold shelf_view. simpl.
    rewrite lookup_empty. by destruct (file !! k'). }
  destruct (decide (k = "indexes")) as [->|Hne].
  - rewrite Hv. rewrite Hview in Hix. f_equal.
    destruct (file !! "indexes") as [c|]; simpl.
    + by inversion Hix.
    + rewrite bool_decide_eq_true_2 in Hix by apply indexes_in_COLLECTIONS.
      by inversion Hix.
  - rewrite <- Hview. unfold shelf_view. by rewrite Hd, Hc.
Qed.

Lemma open_ok file : fst (SimpleOODB file) = Ok tt.
Proof.
  unfold SimpleOODB.
  by destruct (_open_db_unfold (shelve_open file)) as (? & _ & H & _).
Qed.

Lemma open_disk file k :
  disk (snd (SimpleOODB file)) !! k
  = match file !! k with
    | Some c => Some c
    | None => if bool_decide (k ∈ COLLECTIONS) then Some [] else None
    end.
Proof.
  unfold SimpleOODB.
  destruct (_open_db_unfold (shelve_open file)) as (? & _ & _ & Hd & _).
  rewrite Hd. by rewrite ensure_collections_disk.
Qed.

Lemma dict_mem_set k (v : Value) d : dict_mem k (dict_set k v d) = true.
Proof. unfold dict_mem. by rewrite dict_get_set_eq. Qed.

(** C8.  [SimpleOODB(filename)] never raises and leaves a store in which
    each of the seven collections ['artifacts'], ['digital'], ['people'],
    ['institutions'], ['loans'], ['conservations'] and ['indexes'] exists;
    a collection the file lacked is empty (and ['indexes'] then holds just
    an empty ['by_title']); no collection of another name is created; the
    title index exists; every record the file held, title-index entries
    included, reads back unchanged; and opening again what [close] wrote
    changes nothing. *)
Theorem open_ensures_collections (file : gmap string Collection) :
  let sh := snd (SimpleOODB file) in
  fst (SimpleOODB file) = Ok tt /\
  (forall c, c ∈ ["artifacts"; "digital"; "people"; "institutions"; "loans";
                  "conservations"; "indexes"] ->
     is_Some (disk sh !! c) /\ is_Some (shelf_view sh c)) /\
  (forall c, c ∈ ["artifacts"; "digital"; "people"; "institutions"; "loans";
                  "conservations"] ->
     file !! c = None -> shelf_view sh c = Some []) /\
  (forall c, c ∉ ["artifacts"; "digital"; "people"; "institutions"; "loans";
                  "conservations"; "indexes"] ->
     file !! c = None -> shelf_view sh c = None /\ disk sh !! c = None) /\
  (file !! "indexes" = None ->
     shelf_view sh "indexes" = Some [("by_title", VDict [])]) /\
  (exists ix idx, shelf_view sh "indexes" = Some ix /\
     dict_get "by_title" ix = Some idx) /\
  (forall c col k v, file !! c = Some col -> dict_get k col = Some v ->
     fst (get c (VStr k) sh) = Ok v) /\
  (forall c col, file !! c = Some col -> c <> "indexes" ->
     fst (get c VNone sh) = Ok (VDict col)) /\
  (forall ix idx t k, file !! "indexes" = Some ix ->
     dict_get "by_title" ix = Some (VDict idx) ->
     dict_get t idx = Some k ->
     exists idx', fst (get "indexes" (VStr "by_title") sh) = Ok (VDict idx') /\
                  dict_get t idx' = Some k) /\
  close (snd (SimpleOODB (close sh))) = close sh.
Proof.
  intros sh.
  assert (forall c, is_Some (file !! c) \/ c ∈ COLLECTIONS ->
                    is_Some (disk sh !! c)) as Hdisk.
  { intros c Hc. unfold sh. rewrite open_disk.
    destruct (file !! c) as [col|] eqn:E; [eauto|].
    destruct Hc as [[? ?]|Hc]; [done|].
    rewrite bool_decide_eq_true_2 by done. eauto. }
  assert (forall c col k v, file !! c = Some col -> dict_get k col = Some v ->
            fst (get c (VStr k) sh) = Ok v) as Hkeep.
  { intros c col k v Hc Hk. rewrite get_str_fst.
    assert (is_Some (disk sh !! c)) as Hd by (apply Hdisk; eauto).
    destruct (view_of_disk _ _ Hd) as [col' Hv].
    rewrite (collection_of_present _ _ _ Hd Hv).
    unfold sh in Hv. rewrite open_view in Hv.
    destruct (decide (c = "indexes")) as [->|Hne].
    - rewrite Hc in Hv. simpl in Hv.
      destruct (dict_mem "by_title" col) eqn:Hm; inversion Hv; subst.
      + by rewrite Hk.
      + rewrite dict_get_set_ne, Hk; [done|].
        intros <-. unfold dict_mem in Hm. by rewrite Hk in Hm.
    - rewrite Hc in Hv. inversion Hv; subst. by rewrite Hk. }
  split; [apply open_ok|]. split; [|split; [|split; [|split; [|split; [|split;
    [|split; [|split]]]]]]].
  - intros c Hc. change (c ∈ COLLECTIONS) in Hc.
    split; [by apply Hdisk; auto|].
    apply view_of_disk. apply Hdisk. auto.
  - intros c Hc Hf. unfold sh. rewrite open_view.
    assert (c <> "indexes") as Hne.
    { intros ->. rewrite list_elem_of_In in Hc. simpl in Hc.
      intuition discriminate. }
    assert (c ∈ COLLECTIONS) as Hc'.
    { unfold COLLECTIONS. rewrite list_elem_of_In in Hc |- *. simpl in *.
      tauto. }
    destruct (decide (c = "indexes")); [done|]. rewrite Hf.
    by rewrite bool_decide_eq_true_2.
  - intros c Hc Hf. change (c ∉ COLLECTIONS) in Hc.
    assert (c <> "indexes") as Hne
      by (intros ->; apply Hc, indexes_in_COLLECTIONS).
    unfold sh. rewrite open_view, open_disk, Hf.
    destruct (decide (c = "indexes")); [done|].
    by rewrite bool_decide_eq_false_2.
  - intros Hf. unfold sh. rewrite open_view. simpl. by rewrite Hf.
  - unfold sh. rewrite open_view. simpl.
    destruct (dict_mem "by_title" (default [] (file !! "indexes"))) eqn:Hm.
    + unfold dict_mem in Hm.
      destruct (dict_get "by_title" (default [] (file !! "indexes"))) eqn:E;
        [eauto|done].
    + eexists _, _. split; [done|]. apply dict_get_set_eq.
  - exact Hkeep.
  - intros c col Hc Hne. rewrite get_all_fst.
    assert (is_Some (disk sh !! c)) as Hd by (apply Hdisk; eauto).
    rewrite (collection_of_present c sh col); [done|done|].
    unfold sh. rewrite open_view.
    destruct (decide (c = "indexes")); [done|]. by rewrite Hc.
  - intros ix idx t k Hix Hidx Ht. exists idx. split; [|done].
    by apply Hkeep with ix.
  - apply map_eq. intros k. rewrite !close_lookup.
    rewrite (open_view (close sh)). rewrite !close_lookup.
    unfold sh. rewrite !open_view.
    destruct (decide (k = "indexes")) as [->|Hne].
    + rewrite decide_True by done. simpl.
      destruct (dict_mem "by_title" (default [] (file !! "indexes"))) eqn:Hm.
      * by rewrite Hm.
      * by rewrite dict_mem_set.
    + destruct (file !! k); [done|].
      by destruct (bool_decide (k ∈ COLLECTIONS)) eqn:E.
Qed.

(* ===================================================================== *)
(** ** The title index                                                    *)
(* ===================================================================== *)


Lemma get_str_present C k sh col :
  is_Some (disk sh !! C) -> shelf_view sh C = Some col ->
  fst (get C (VStr k) sh) = Ok (default VNone (dict_get k col)).
Proof.
  intros Hd Hv. rewrite get_str_fst.
  by rewrite (collection_of_present _ _ _ Hd Hv).
Qed.


(* ===================================================================== *)
(** ** Read-only computations                                             *)
(* ===================================================================== *)

Lemma reads_ret {A : Type} (a : A) : reads (ret a).
Proof. intros sh. apply loads_refl. Qed.

Lemma reads_lift {A : Type} (r : Result A) : reads (lift r).
Proof. intros sh. apply loads_refl. Qed.

Lemma reads_bind {A B : Type} (m : M A) (f : A -> M B) :
  reads m -> (forall a, reads (f a)) -> reads (bind m f).
Proof.
  intros Hm Hf sh. unfold bind. specialize (Hm sh).
  destruct (m sh) as [[a|e] sh1]; simpl in *; [|done].
  by apply loads_trans with sh1, Hf.
Qed.

Lemma reads_shelf_getitem k : reads (shelf_getitem k).
Proof. intros sh. apply shelf_getitem_loads. Qed.

Lemma reads_shelf_get k dflt : reads (shelf_get k dflt).
Proof. intros sh. apply shelf_get_loads. Qed.

Lemma reads_get C key : reads (get C key).
Proof. intros sh. apply get_loads. Qed.

Lemma reads_store_get store name : reads (store_get store name).
Proof.
  destruct store; simpl.
  - apply reads_bind; [apply reads_shelf_get|]. intros. apply reads_ret.
  - apply reads_get.
Qed.

Lemma reads_mapM {A B : Type} (f : A -> M B) (l : list A) :
  (forall a, reads (f a)) -> reads (mapM f l).
Proof.
  intros Hf. induction l as [|x l IH]; simpl; [apply reads_ret|].
  apply reads_bind; [done|]. intros y.
  apply reads_bind; [done|]. intros ys. apply reads_ret.
Qed.

Lemma reads_is_on_loan_from store ids : reads (is_on_loan_from store ids).
Proof.
  induction ids as [|id ids IH]; simpl; [apply reads_ret|].
  apply reads_bind; [apply reads_store_get|]. intros col.
  apply reads_bind; [apply reads_lift|]. intros loan.
  destruct (truthy loan); [|done].
  apply reads_bind; [apply reads_lift|]. intros st.
  destruct (String.eqb st "ACTIVE"); [apply reads_ret|done].
Qed.

Lemma reads_is_on_loan a store : reads (is_on_loan a store).
Proof. apply reads_is_on_loan_from. Qed.

Lemma reads_display_status a store : reads (display_status a store).
Proof.
  unfold display_status.
  apply reads_bind; [apply reads_is_on_loan|]. intros [onloan loan].
  apply reads_bind.
  - destruct (conservation_records a); [apply reads_ret|].
    apply reads_bind.
    + apply reads_mapM. intros cid.
      apply reads_bind; [apply reads_store_get|]. intros. apply reads_lift.
    + intros crs. destruct (List.filter truthy crs);
        [apply reads_ret|apply reads_lift].
  - intros lc. apply reads_bind; [apply reads_lift|]. intros.
    apply reads_bind; [apply reads_lift|]. intros. apply reads_ret.
Qed.

Lemma reads_query_artifacts_by_material m :
  reads (query_artifacts_by_material m).
Proof.
  apply reads_bind; [apply reads_shelf_getitem|]. intros. apply reads_lift.
Qed.

Lemma reads_query_conservation_by_restorer rid :
  reads (query_conservation_by_restorer rid).
Proof.
  apply reads_bind; [apply reads_shelf_getitem|]. intros. apply reads_lift.
Qed.

Create HintDb reads.
#[local] Hint Resolve reads_get reads_is_on_loan reads_display_status
  reads_query_artifacts_by_material reads_query_conservation_by_restorer
  : reads.

(** [store.get(name, {})] on the raw shelf answers the collection. *)
Lemma store_get_shelf_fst name sh :
  fst (store_get TheShelf name sh) = Ok (VDict (collection_of name [] sh)).
Proof.
  simpl. by rewrite (bind_ok _ _ _ _ (shelf_get_fst name [] sh)).
Qed.

(** On a [SimpleOODB] the [{}] lands in the [key] parameter and is hashed
    by [dict.get]. *)
Lemma store_get_oodb_fst name sh :
  fst (store_get TheOODB name sh) = Raise TypeError.
Proof. simpl. by rewrite get_fst. Qed.

Lemma is_on_loan_from_shelf ids sh :
  fst (is_on_loan_from TheShelf ids sh)
  = scan_loans (collection_of "loans" [] sh) ids.
Proof.
  revert sh. induction ids as [|id ids IH]; intros sh; [done|].
  cbn [is_on_loan_from scan_loans].
  rewrite (bind_ok _ _ _ _ (store_get_shelf_fst "loans" sh)).
  pose proof (reads_store_get TheShelf "loans" sh) as Hl.
  set (sh1 := snd (store_get TheShelf "loans" sh)) in *.
  unfold bind, lift. cbn [value_get pydict_get hashable].
  destruct (truthy (default VNone (dict_get id _))).
  - destruct (attr_status _) as [st|e]; [|done].
    destruct (String.eqb st "ACTIVE"); [done|].
    by rewrite IH, (loads_collection_of _ _ _ _ Hl).
  - by rewrite IH, (loads_collection_of _ _ _ _ Hl).
Qed.

(* ===================================================================== *)
(** ** [is_on_loan]                                                       *)
(* ===================================================================== *)

Lemma scan_loans_skip sh id ids :
  loan_skipped sh id ->
  scan_loans (collection_of "loans" [] sh) (id :: ids)
  = scan_loans (collection_of "loans" [] sh) ids.
Proof.
  unfold loan_skipped. rewrite get_str_fst. simpl.
  intros [[= ->]|(l & [= ->] & Hl)]; simpl; [done|].
  by destruct (String.eqb_spec (status l) "ACTIVE").
Qed.

Lemma scan_loans_total col ids :
  Forall (fun id => default VNone (dict_get id col) = VNone \/
                    is_loan (default VNone (dict_get id col))) ids ->
  (scan_loans col ids = Ok (false, VNone)) \/
  (exists l, scan_loans col ids = Ok (true, VLoan l) /\ status l = "ACTIVE").
Proof.
  induction 1 as [|id ids Hid _ IH]; simpl; [by left|].
  destruct Hid as [->|[l ->]]; simpl; [done|].
  destruct (String.eqb_spec (status l) "ACTIVE"); [|done].
  right. by exists l.
Qed.

(** C4.  With the raw shelf as [store], [is_on_loan] passes over every
    loan id that does not resolve in ['loans'] or resolves to a loan that
    is not ['ACTIVE'], and returns [(True, loan)] for the first id that
    resolves to an ['ACTIVE'] loan, whatever follows it in the list; when
    every id is passed over it returns [(False, None)].  It only reads the
    shelf, and when each id resolves to nothing or to a [Loan] it returns
    one of these two answers. *)
Theorem is_on_loan_first_active (a : Artifact) (sh : Shelf) :
  (forall pre id post l,
     loans a = pre ++ id :: post ->
     Forall (loan_skipped sh) pre ->
     fst (get "loans" (VStr id) sh) = Ok (VLoan l) ->
     status l = "ACTIVE" ->
     fst (is_on_loan a TheShelf sh) = Ok (true, VLoan l)) /\
  (Forall (loan_skipped sh) (loans a) ->
     fst (is_on_loan a TheShelf sh) = Ok (false, VNone)) /\
  (Forall (resolves_within sh "loans" is_loan) (loans a) ->
     fst (is_on_loan a TheShelf sh) = Ok (false, VNone) \/
     exists l, fst (is_on_loan a TheShelf sh) = Ok (true, VLoan l) /\
               status l = "ACTIVE") /\
  loads sh (snd (is_on_loan a TheShelf sh)).
Proof.
  unfold is_on_loan. rewrite is_on_loan_from_shelf.
  split; [|split; [|split]].
  - intros pre id post l -> Hpre Hid Hact.
    induction Hpre as [|id' pre Hid' _ IH].
    + rewrite get_str_fst in Hid. inversion Hid as [Hd].
      simpl. rewrite Hd. simpl. by rewrite Hact.
    + simpl app. by rewrite scan_loans_skip.
  - intros Hall. induction Hall as [|id ids Hid _ IH]; [done|].
    by rewrite scan_loans_skip.
  - intros Hall. apply scan_loans_total.
    eapply Forall_impl; [exact Hall|]. intros id.
    unfold resolves_within. rewrite get_str_fst.
    intros [[= ->]|(v & [= ->] & Hv)]; auto.
  - apply reads_is_on_loan_from.
Qed.

(* ===================================================================== *)
(** ** The [store] argument of the resolvers                              *)
(* ===================================================================== *)

(** C9.  Handed the [SimpleOODB] object instead of its shelf, [is_on_loan]
    and [display_status] raise [TypeError] for every artifact with a
    non-empty [loans] list: [store.get('loans', {})] passes [{}] as the
    key, and [dict.get] cannot hash it. *)
Theorem resolvers_need_raw_shelf (a : Artifact) (sh : Shelf) :
  loans a <> [] ->
  fst (is_on_loan a TheOODB sh) = Raise TypeError /\
  fst (display_status a TheOODB sh) = Raise TypeError.
Proof.
  intros Hne.
  assert (fst (is_on_loan a TheOODB sh) = Raise TypeError) as H.
  { unfold is_on_loan. destruct (loans a) as [|id ids]; [done|].
    cbn [is_on_loan_from].
    by rewrite (bind_raise _ _ _ _ (store_get_oodb_fst "loans" sh)). }
  split; [done|]. unfold display_status.
  by rewrite (bind_raise _ _ _ _ H).
Qed.

(* ===================================================================== *)
(** ** [current_version]                                                  *)
(* ===================================================================== *)

Lemma key_le_leb {A : Type} (key : A -> string) (u v : A) :
  key_le key u v <-> String.leb (key u) (key v) = true.
Proof.
  unfold key_le. rewrite StrOrder.leb_ltb.
  by destruct (String.ltb (key v) (key u)).
Qed.

Lemma Forall_key_le_leb {A : Type} (key : A -> string) (v : A) (l : list A) :
  Forall (fun u => key_le key u v) l
  <-> Forall (fun u => String.leb (key u) (key v) = true) l.
Proof. apply Forall_proper; [|done]. intros u. apply key_le_leb. Qed.

(** The last element of [sorted key l] has the greatest key of [l]. *)
Lemma last_sorted_max {A : Type} (key : A -> string) (l : list A) :
  match last_item (sorted key l) with
  | None => l = []
  | Some x => x ∈ l /\ Forall (fun u => String.leb (key u) (key x) = true) l
  end.
Proof.
  destruct l as [|y l]; [done|].
  destruct (last_sorted_greatest key (y :: l)) as (l1 & x & l2 & Hl & H1 & H2 & Hx);
    [done|].
  unfold last_item. rewrite Hx, Hl. split; [set_solver|].
  apply Forall_app. split; [by apply Forall_key_le_leb|].
  constructor.
  - rewrite StrOrder.leb_ltb. by rewrite StrOrder.ltb_irrefl.
  - eapply Forall_impl; [exact H2|]. intros u Hu. unfold key_lt in Hu.
    rewrite StrOrder.leb_ltb.
    destruct (String.ltb (key x) (key u)) eqn:E; [|done].
    pose proof (StrOrder.ltb_trans _ _ _ Hu E) as Hc.
    by rewrite StrOrder.ltb_irrefl in Hc.
Qed.

(** C3.  [current_version] is [None] exactly for an artifact without
    versions.  Otherwise the versions split as [l1 ++ v :: l2] where no
    version of [l1] has a greater time stamp than [v] and every version of
    [l2] has a smaller one, and the result is that [v]: the greatest time
    stamp, the last of the list among equals.  For time stamps
    [t1, t3, t2] in this order it is the second version. *)
Theorem current_version_latest (a : Artifact) :
  (versions a = [] -> current_version a = None) /\
  (versions a <> [] ->
   exists l1 v l2,
     versions a = l1 ++ v :: l2 /\
     Forall (fun u => String.leb (timestamp u) (timestamp v) = true) l1 /\
     Forall (fun u => String.ltb (timestamp u) (timestamp v) = true) l2 /\
     current_version a = Some v) /\
  (forall l1 v l2,
     versions a = l1 ++ v :: l2 ->
     Forall (fun u => String.leb (timestamp u) (timestamp v) = true) l1 ->
     Forall (fun u => String.ltb (timestamp u) (timestamp v) = true) l2 ->
     current_version a = Some v) /\
  (forall v1 v2 v3,
     versions a = [v1; v2; v3] ->
     timestamp v1 = "t1" -> timestamp v2 = "t3" -> timestamp v3 = "t2" ->
     current_version a = Some v2).
Proof.
  assert (forall l1 v l2,
            versions a = l1 ++ v :: l2 ->
            Forall (fun u => String.leb (timestamp u) (timestamp v) = true) l1 ->
            Forall (fun u => String.ltb (timestamp u) (timestamp v) = true) l2 ->
            current_version a = Some v) as Hdecomp.
  { intros l1 v l2 Hv H1 H2. unfold current_version, last_item. rewrite Hv.
    rewrite last_sorted_decomp; [by destruct l1| |done].
    by apply Forall_key_le_leb. }
  split; [|split; [|split]].
  - intros Hv. unfold current_version. by rewrite Hv.
  - intros Hne.
    destruct (greatest_last_exists timestamp (versions a) Hne)
      as (l1 & v & l2 & Hl & H1 & H2).
    apply Forall_key_le_leb in H1.
    exists l1, v, l2. repeat split; try done. by apply Hdecomp with l1 l2.
  - exact Hdecomp.
  - intros v1 v2 v3 Hv T1 T2 T3. apply (Hdecomp [v1] v2 [v3]); [done| |].
    + constructor; [|constructor]. by rewrite T1, T2.
    + constructor; [|constructor]. by rewrite T2, T3.
Qed.

(* ===================================================================== *)
(** ** [put] on a collection the store does not have                      *)
(* ===================================================================== *)

Lemma loads_known_keys sh sh' : loads sh sh' -> known_keys sh -> known_keys sh'.
Proof.
  intros [Hd Hc] Hk k. rewrite Hd.
  destruct (Hc k) as [->|[_ ->]]; [apply Hk|]. intros [?|?]; apply Hk; auto.
Qed.

Lemma sync_known_keys sh : known_keys sh -> known_keys (snd (shelf_sync sh)).
Proof.
  intros Hk k. unfold shelf_sync. simpl. rewrite lookup_empty.
  intros [[? ?]|H]; [done|]. apply lookup_union_is_Some in H. by apply Hk.
Qed.

Lemma insert_cache_known_keys dk ch k c :
  k ∈ COLLECTIONS ->
  known_keys (mkShelf dk ch) -> known_keys (mkShelf dk (<[k := c]> ch)).
Proof.
  intros Hin Hk k'. simpl. destruct (decide (k = k')) as [<-|Hne]; [done|].
  rewrite lookup_insert_ne by done. apply Hk.
Qed.

Lemma view_known_keys sh k :
  known_keys sh -> is_Some (shelf_view sh k) -> k ∈ COLLECTIONS.
Proof.
  intros Hk Hv. apply Hk. unfold shelf_view in Hv.
  destruct (cache sh !! k); [left; eauto|by right].
Qed.

Lemma put_known_keys C k r sh :
  known_keys sh -> known_keys (snd (put C k r sh)).
Proof.
  intros Hk. destruct (shelf_view sh C) as [col|] eqn:Hv.
  - assert (C ∈ COLLECTIONS) as HC by (apply (view_known_keys sh); eauto).
    assert (known_keys (mkShelf (disk sh) (<[C := dict_set k r col]> (cache sh))))
      as Hk2 by (apply insert_cache_known_keys; [done|by destruct sh]).
    rewrite (put_unfold _ _ _ _ _ Hv). cbv zeta.
    destruct (String.eqb C "artifacts"); [|by apply sync_known_keys].
    set (sh2 := mkShelf _ _) in *.
    assert (known_keys (snd (update_title_index k r sh2))) as Hk3.
    { destruct (update_title_index_state k r sh2) as [->|[ix ->]]; [done|].
      apply insert_cache_known_keys; [apply indexes_in_COLLECTIONS|done]. }
    destruct (update_title_index k r sh2) as [[[]|e] sh3]; cbn [fst snd] in *.
    + by apply sync_known_keys.
    + done.
  - by rewrite (put_absent _ _ _ _ Hv).
Qed.

Lemma open_known_keys file :
  (forall k, is_Some (file !! k) -> k ∈ COLLECTIONS) ->
  known_keys (snd (SimpleOODB file)).
Proof.
  intros Hf k Hk.
  assert (is_Some (shelf_view (snd (SimpleOODB file)) k)) as Hv.
  { unfold shelf_view. destruct Hk as [[c ->]|Hk]; [eauto|].
    by destruct (cache _ !! k); [eauto|]. }
  rewrite open_view in Hv.
  destruct (decide (k = "indexes")) as [->|Hne];
    [apply indexes_in_COLLECTIONS|].
  destruct (file !! k) eqn:E; [apply Hf; rewrite E; eauto|].
  destruct (bool_decide (k ∈ COLLECTIONS)) eqn:Hb.
  - by apply bool_decide_eq_true in Hb.
  - by destruct Hv.
Qed.

Lemma close_known_keys sh k :
  known_keys sh -> is_Some (close sh !! k) -> k ∈ COLLECTIONS.
Proof. rewrite close_lookup. intros. by apply view_known_keys with sh. Qed.

(** A method that only reads keeps the keys within the seven. *)
Ltac by_reading :=
  match goal with
  | IH : known_keys ?sh |- known_keys (snd (?m ?sh)) =>
      let Hm := fresh in
      assert (reads m) as Hm by auto with reads;
      exact (loads_known_keys sh _ (Hm sh) IH)
  end.

(** Every store the module reaches from a new file has just the seven
    collections as keys. *)
Lemma reachable_known_keys sh : reachable sh -> known_keys sh.
Proof.
  induction 1 as [|sh C k r _ IH|sh C key _ IH|sh _ IH|sh m _ IH|sh rid _ IH
                  |sh a store _ IH|sh a store _ IH|sh _ IH];
    try by_reading.
  - apply open_known_keys. intros k [c Hc]. by rewrite lookup_empty in Hc.
  - by apply put_known_keys.
  - by apply sync_known_keys.
  - apply open_known_keys. intros k. by apply close_known_keys.
Qed.

(** Every such store has the seven collections on file. *)
Lemma reachable_has_collections sh c :
  reachable sh -> c ∈ COLLECTIONS -> is_Some (disk sh !! c).
Proof.
  intros Hr Hc.
  assert (forall file, is_Some (disk (snd (SimpleOODB file)) !! c)) as Hopen.
  { intros file. rewrite open_disk. destruct (file !! c); [eauto|].
    rewrite bool_decide_eq_true_2 by done. eauto. }
  induction Hr as [|sh C k r _ IH|sh C key _ IH|sh _ IH|sh m _ IH|sh rid _ IH
                   |sh a store _ IH|sh a store _ IH|sh _ IH];
    try (match goal with
         | |- is_Some (disk (snd (?m ?sh)) !! c) =>
             let Hm := fresh in
             assert (reads m) as Hm by auto with reads;
             destruct (Hm sh) as [-> _]; exact IH
         end).
  - apply Hopen.
  - by apply put_disk_mono.
  - by apply sync_disk_mono.
  - apply Hopen.
Qed.

(** C10.  On a store reached from a new file, a collection name outside
    the seven is absent; [put] to it raises [KeyError] and leaves the
    shelf, file and cache, as it was, while [get] on it returns [None]
    (and the whole-collection [get] the empty mapping). *)
Theorem put_absent_collection_raises (sh : Shelf) (C k : string) (r : Value) :
  reachable sh -> C ∉ COLLECTIONS ->
  put C k r sh = (Raise KeyError, sh) /\
  fst (get C (VStr k) sh) = Ok VNone /\
  fst (get C VNone sh) = Ok (VDict []).
Proof.
  intros Hr HC. pose proof (reachable_known_keys sh Hr) as Hk.
  assert (disk sh !! C = None) as Hd.
  { apply eq_None_not_Some. intros H. apply HC, Hk. by right. }
  assert (cache sh !! C = None) as Hc.
  { apply eq_None_not_Some. intros H. apply HC, Hk. by left. }
  split; [|split].
  - apply put_absent. unfold shelf_view. by rewrite Hc.
  - rewrite get_str_fst. unfold collection_of.
    apply shelf_contains_false in Hd. by rewrite Hd.
  - rewrite get_all_fst. unfold collection_of.
    apply shelf_contains_false in Hd. by rewrite Hd.
Qed.

(* ===================================================================== *)
(** ** [query_artifacts_by_material]                                      *)
(* ===================================================================== *)

Lemma prefix_app (m s : string) :
  String.prefix m s = true <-> exists q, s = (m ++ q)%string.
Proof.
  revert s. induction m as [|c m IH]; intros s; simpl.
  - destruct s; split; eauto.
  - destruct s as [|c' s]; simpl.
    + split; [done|]. by intros [q Hq].
    + destruct (ascii_dec c c') as [->|Hne].
      * rewrite IH. split; intros [q Hq]; exists q.
        -- by rewrite Hq.
        -- by inversion Hq.
      * split; [done|]. intros [q Hq]. by inversion Hq.
Qed.

(** [contains m s] says that [m] is a substring of [s]. *)
Lemma contains_app (m s : string) :
  contains m s = true <-> exists p q, s = (p ++ m ++ q)%string.
Proof.
  induction s as [|c s IH].
  - cbn [contains]. rewrite orb_false_r, prefix_app. split.
    + intros [q Hq]. by exists EmptyString, q.
    + intros (p & q & Hpq). destruct p as [|c p]; [by exists q|done].
  - cbn [contains]. rewrite orb_true_iff, IH, prefix_app. split.
    + intros [[q Hq]|(p & q & Hpq)].
      * by exists EmptyString, q.
      * exists (String c p), q. simpl. by rewrite Hpq.
    + intros (p & q & Hpq). destruct p as [|c' p]; simpl in Hpq.
      * left. by exists q.
      * right. exists p, q. by inversion Hpq.
Qed.

Lemma material_matches_artifact m a :
  material_matches m (VArtifact a) = Ok (material_hit m (VArtifact a)).
Proof.
  unfold material_matches, material_hit. simpl.
  destruct (material a) as [s|]; [|done]. by destruct (String.eqb s "").
Qed.

Lemma filterM_material m vs :
  Forall is_artifact vs ->
  filterM (material_matches m) vs = Ok (List.filter (material_hit m) vs).
Proof.
  induction 1 as [|v vs [a ->] _ IH]; [done|].
  cbn [filterM List.filter]. rewrite material_matches_artifact, IH.
  by destruct (material_hit m (VArtifact a)).
Qed.

Lemma query_artifacts_by_material_fst m sh :
  fst (query_artifacts_by_material m sh)
  = match shelf_view sh "artifacts" with
    | Some col => filterM (material_matches m) (dict_values col)
    | None => Raise KeyError
    end.
Proof.
  unfold query_artifacts_by_material.
  pose proof (shelf_getitem_fst "artifacts" sh) as Hg.
  destruct (shelf_view sh "artifacts") as [col|].
  - by rewrite (bind_ok _ _ _ _ Hg).
  - by rewrite (bind_raise _ _ _ _ Hg).
Qed.

Lemma material_hit_spec m v :
  material_hit m v = true <->
  exists a s, v = VArtifact a /\ material a = Some s /\ s <> "" /\
              contains (lower m) (lower s) = true.
Proof.
  split.
  - destruct v as [| | | | | | | | |a]; simpl; try done.
    destruct (material a) as [s|] eqn:Hm; [|done].
    rewrite andb_true_iff, negb_true_iff, String.eqb_neq.
    intros [Hs Hc]. by exists a, s.
  - intros (a & s & -> & Hm & Hs & Hc). simpl. rewrite Hm.
    rewrite andb_true_iff, negb_true_iff, String.eqb_neq. done.
Qed.

(** C7, amended.  When ['artifacts'] holds [Artifact] records, the query
    returns, in the order of the collection, exactly the records whose
    [material] is a non-empty string containing [m], both lower-cased; a
    [None] material and an empty one are left out.  Over one artifact of
    material "oil on canvas" and one of "tempera", "oil" finds the first. *)
Theorem query_by_material_exact (sh : Shelf) (m : string) (col : Collection) :
  shelf_view sh "artifacts" = Some col ->
  Forall is_artifact (dict_values col) ->
  fst (query_artifacts_by_material m sh)
  = Ok (List.filter (material_hit m) (dict_values col)) /\
  (forall v, v ∈ List.filter (material_hit m) (dict_values col) <->
     v ∈ dict_values col /\
     exists a s, v = VArtifact a /\ material a = Some s /\ s <> "" /\
                 contains (lower m) (lower s) = true) /\
  (forall k1 k2 a1 a2,
     col = [(k1, VArtifact a1); (k2, VArtifact a2)] -> m = "oil" ->
     material a1 = Some "oil on canvas" -> material a2 = Some "tempera" ->
     fst (query_artifacts_by_material m sh) = Ok [VArtifact a1]).
Proof.
  intros Hv Hty.
  assert (fst (query_artifacts_by_material m sh)
          = Ok (List.filter (material_hit m) (dict_values col))) as Hq.
  { rewrite query_artifacts_by_material_fst, Hv. by apply filterM_material. }
  split; [done|]. split.
  - intros v. rewrite list_elem_of_In, filter_In, <- list_elem_of_In.
    by rewrite material_hit_spec.
  - intros k1 k2 a1 a2 -> -> H1 H2. rewrite Hq. simpl. rewrite H1, H2.
    by rewrite !lower_on_ascii by done.
Qed.

(* ===================================================================== *)
(** ** [display_status]                                                   *)
(* ===================================================================== *)

Lemma resolve_fst name id sh :
  fst (bind (store_get TheShelf name)
         (fun col => lift (value_get col (VStr id))) sh)
  = Ok (default VNone (dict_get id (collection_of name [] sh))).
Proof. by rewrite (bind_ok _ _ _ _ (store_get_shelf_fst name sh)). Qed.

Lemma reads_resolve name id :
  reads (bind (store_get TheShelf name)
           (fun col => lift (value_get col (VStr id)))).
Proof.
  apply reads_bind; [apply reads_store_get|]. intros. apply reads_lift.
Qed.

(** The list comprehension over [conservation_records]. *)
Lemma mapM_resolve name ids sh :
  fst (mapM (fun id => bind (store_get TheShelf name)
                         (fun col => lift (value_get col (VStr id)))) ids sh)
  = Ok (map (fun id => default VNone (dict_get id (collection_of name [] sh)))
          ids).
Proof.
  revert sh. induction ids as [|id ids IH]; intros sh; [done|].
  cbn [mapM map]. rewrite (bind_ok _ _ _ _ (resolve_fst name id sh)).
  pose proof (reads_resolve name id sh) as Hl.
  rewrite (bind_ok _ _ _ _ (IH _)).
  by rewrite (loads_collection_of _ _ _ _ Hl).
Qed.

Lemma sorted_insert_map {A B : Type} (key : A -> string) (key' : B -> string)
  (g : A -> B) (x : A) (l : list A) :
  (forall y, key' (g y) = key y) ->
  sorted_insert key' (g x) (map g l) = map g (sorted_insert key x l).
Proof.
  intros Hk. induction l as [|y l IH]; [done|].
  cbn [map sorted_insert]. rewrite !Hk.
  destruct (String.ltb (key y) (key x)); [|done]. by rewrite IH.
Qed.

(** Sorting decorated elements sorts the elements. *)
Lemma sorted_map {A B : Type} (key : A -> string) (key' : B -> string)
  (g : A -> B) (l : list A) :
  (forall y, key' (g y) = key y) ->
  sorted key' (map g l) = map g (sorted key l).
Proof.
  intros Hk. induction l as [|x l IH]; [done|].
  unfold sorted in *. cbn [map foldr]. rewrite IH.
  by apply sorted_insert_map.
Qed.

Lemma mapR_date rs :
  mapR (fun c => match attr_date c with
                 | Ok k => Ok (k, c)
                 | Raise e => Raise e
                 end) (map VConservation rs)
  = Ok (map (fun c => (date c, VConservation c)) rs).
Proof. induction rs as [|c rs IH]; [done|]. cbn [map mapR]. by rewrite IH. Qed.

Lemma latest_by_date_conservations rs :
  latest_by_date (map VConservation rs)
  = Ok (from_option VConservation VNone (last_item (sorted date rs))).
Proof.
  unfold latest_by_date, sorted_by_attr. rewrite mapR_date.
  rewrite (sorted_map date fst (fun c => (date c, VConservation c))) by done.
  rewrite map_map. cbn [snd]. unfold last_item.
  change (map VConservation (sorted date rs))
    with (VConservation <$> sorted date rs).
  rewrite fmap_last.
  by destruct (last (sorted date rs)).
Qed.

Lemma filter_truthy_resolved sh ids :
  Forall (resolves_within sh "conservations" is_conservation) ids ->
  List.filter truthy
    (map (fun id => default VNone
                      (dict_get id (collection_of "conservations" [] sh))) ids)
  = map VConservation (resolved_conservations sh ids).
Proof.
  unfold resolved_conservations.
  induction 1 as [|id ids Hid _ IH]; [done|].
  unfold resolves_within in Hid.
  assert (omap (fun id => match fst (get "conservations" (VStr id) sh) with
                          | Ok (VConservation c) => Some c
                          | _ => None
                          end) (id :: ids)
          = match fst (get "conservations" (VStr id) sh) with
            | Ok (VConservation c) => [c]
            | _ => []
            end ++
            omap (fun id => match fst (get "conservations" (VStr id) sh) with
                            | Ok (VConservation c) => Some c
                            | _ => None
                            end) ids) as ->.
  { cbn [omap list_omap].
    by destruct (fst (get "conservations" (VStr id) sh)) as [[]|]. }
  cbn [map List.filter]. cbn beta.
  destruct Hid as [Hg|(v & Hg & [c ->])]; rewrite Hg;
    rewrite get_str_fst in Hg; inversion Hg as [Hd]; rewrite !Hd; cbn;
    by rewrite IH.
Qed.

Lemma scan_loans_shape col ids b v :
  scan_loans col ids = Ok (b, v) ->
  (b = false /\ v = VNone) \/
  (b = true /\ exists l, v = VLoan l /\ status l = "ACTIVE").
Proof.
  induction ids as [|id ids IH]; simpl.
  - intros [= <- <-]. by left.
  - destruct (truthy (default VNone (dict_get id col))); [|done].
    destruct (default VNone (dict_get id col)) as [| | | | | | | |l|];
      simpl; try done.
    destruct (String.eqb_spec (status l) "ACTIVE"); [|done].
    intros [= <- <-]. right. split; [done|]. by exists l.
Qed.

(** C5.  With the raw shelf as [store], suppose [is_on_loan] returns
    [(onloan, loan)] and each id of [conservation_records] resolves in
    ['conservations'] to nothing or to a [ConservationRecord].  Then
    [display_status] returns the record of the artifact's id and title,
    [onloan], the id of [loan] (absent when there is none), the id of
    [current_version()] (absent when there is none) and the id of the
    last of the resolved conservation records sorted by date (absent when
    none resolves); that record has the greatest date among them.  [loan]
    is [None] when [onloan] is false and an ['ACTIVE'] loan otherwise. *)
Theorem display_status_fields (a : Artifact) (sh : Shelf)
  (onloan : bool) (loan : Value) :
  fst (is_on_loan a TheShelf sh) = Ok (onloan, loan) ->
  Forall (resolves_within sh "conservations" is_conservation)
    (conservation_records a) ->
  let rs := resolved_conservations sh (conservation_records a) in
  let latest := last_item (sorted date rs) in
  fst (display_status a TheShelf sh)
  = Ok {| st_artifact_id := artifact_id a;
          st_title := title a;
          st_on_loan := onloan;
          st_loan_ref := match loan with
                         | VLoan l => Some (loan_id l)
                         | _ => None
                         end;
          st_current_version := version_id <$> current_version a;
          st_last_conservation := record_id <$> latest |} /\
  ((onloan = false /\ loan = VNone) \/
   (onloan = true /\ exists l, loan = VLoan l /\ status l = "ACTIVE")) /\
  match latest with
  | None => rs = []
  | Some c =>
      c ∈ rs /\ Forall (fun c' => String.leb (date c') (date c) = true) rs
  end.
Proof.
  intros Hloan Hty rs latest.
  assert ((onloan = false /\ loan = VNone) \/
          (onloan = true /\ exists l, loan = VLoan l /\ status l = "ACTIVE"))
    as Hshape.
  { unfold is_on_loan in Hloan. rewrite is_on_loan_from_shelf in Hloan.
    by apply scan_loans_shape in Hloan. }
  split; [|split; [done|apply last_sorted_max]].
  unfold display_status. rewrite (bind_ok _ _ _ _ Hloan).
  pose proof (reads_is_on_loan a TheShelf sh) as Hl.
  set (sh1 := snd (is_on_loan a TheShelf sh)) in *.
  set (block := match conservation_records a with
                | [] => ret VNone
                | _ => _
                end).
  assert (fst (block sh1) = Ok (from_option VConservation VNone latest)) as Hb.
  { unfold block, latest, rs.
    destruct (conservation_records a) as [|id ids] eqn:Hids; [done|].
    rewrite (bind_ok _ _ _ _ (mapM_resolve "conservations" (id :: ids) sh1)).
    rewrite (loads_collection_of _ _ _ _ Hl).
    rewrite (filter_truthy_resolved sh (id :: ids) Hty).
    destruct (resolved_conservations sh (id :: ids)) as [|c cs] eqn:Hrs;
      [done|].
    cbn [map]. unfold lift. cbn [fst].
    apply (latest_by_date_conservations (c :: cs)). }
  rewrite (bind_ok _ _ _ _ Hb). unfold bind, lift, ret. cbn [fst].
  assert (attr_if attr_loan_id loan
          = Ok match loan with VLoan l => Some (loan_id l) | _ => None end)
    as ->.
  { by destruct Hshape as [[_ ->]|[_ (l & -> & _)]]. }
  assert (attr_if attr_record_id (from_option VConservation VNone latest)
          = Ok (record_id <$> latest)) as ->.
  { by destruct latest. }
  done.
Qed.

(* ===================================================================== *)
(** ** The cache holds only what the file has                             *)
(* ===================================================================== *)

Lemma shelve_open_cache_on_file file : cache_on_file (shelve_open file).
Proof. intros k [c Hc]. simpl in Hc. by rewrite lookup_empty in Hc. Qed.


Lemma loads_cache_on_file sh sh' :
  loads sh sh' -> cache_on_file sh -> cache_on_file sh'.
Proof.
  intros [Hd Hc] Hw k. rewrite Hd.
  destruct (Hc k) as [->|[_ ->]]; [apply Hw|done].
Qed.

Lemma sync_cache_on_file sh : cache_on_file (snd (shelf_sync sh)).
Proof. intros k [c Hc]. simpl in Hc. by rewrite lookup_empty in Hc. Qed.

Lemma insert_cache_on_file dk ch k c :
  is_Some (dk !! k) ->
  cache_on_file (mkShelf dk ch) -> cache_on_file (mkShelf dk (<[k := c]> ch)).
Proof.
  intros Hk Hw k'. simpl. destruct (decide (k = k')) as [<-|Hne]; [done|].
  rewrite lookup_insert_ne by done. apply Hw.
Qed.

(** On such a shelf a key is on file exactly when a read finds it. *)
Lemma cache_on_file_view sh k :
  cache_on_file sh -> is_Some (shelf_view sh k) -> is_Some (disk sh !! k).
Proof.
  intros Hw. unfold shelf_view. destruct (cache sh !! k) eqn:E; [|done].
  intros _. apply Hw. rewrite E. eauto.
Qed.

Lemma collection_of_view sh k :
  cache_on_file sh -> collection_of k [] sh = default [] (shelf_view sh k).
Proof.
  intros Hw. unfold collection_of.
  destruct (shelf_contains k sh) eqn:E; [done|].
  apply shelf_contains_false in E.
  destruct (shelf_view sh k) eqn:Hv; [|done].
  assert (is_Some (disk sh !! k)) as [c Hc]
    by (apply cache_on_file_view; [done|rewrite Hv; eauto]).
  congruence.
Qed.

Lemma update_title_index_cache_on_file key obj sh :
  cache_on_file sh -> cache_on_file (snd (update_title_index key obj sh)).
Proof.
  intros Hw. rewrite update_title_index_unfold.
  destruct (shelf_view sh "indexes") as [ix|] eqn:Hv; [|done].
  assert (is_Some (disk sh !! "indexes")) as Hd
    by (apply cache_on_file_view; [done|rewrite Hv; eauto]).
  cbv zeta.
  destruct (attr_title obj); cbn [snd];
    [destruct (value_setitem _ _ _); cbn [snd]|];
    apply insert_cache_on_file; try done; by destruct sh.
Qed.

Lemma put_cache_on_file C k r sh :
  cache_on_file sh -> cache_on_file (snd (put C k r sh)).
Proof.
  intros Hw. destruct (shelf_view sh C) as [col|] eqn:Hv.
  - assert (cache_on_file
              (mkShelf (disk sh) (<[C := dict_set k r col]> (cache sh))))
      as Hw2.
    { apply insert_cache_on_file; [|by destruct sh].
      apply cache_on_file_view; [done|]. rewrite Hv. eauto. }
    rewrite (put_unfold _ _ _ _ _ Hv). cbv zeta.
    destruct (String.eqb C "artifacts"); [|apply sync_cache_on_file].
    set (sh2 := mkShelf _ _) in *.
    pose proof (update_title_index_cache_on_file k r sh2 Hw2) as Hw3.
    destruct (update_title_index k r sh2) as [[[]|e] sh3]; cbn [fst snd] in *.
    + apply sync_cache_on_file.
    + done.
  - by rewrite (put_absent _ _ _ _ Hv).
Qed.

Lemma ensure_collections_cache_on_file cols sh :
  cache_on_file sh -> cache_on_file (snd (ensure_collections cols sh)).
Proof.
  intros Hw k. rewrite ensure_collections_cache, ensure_collections_disk.
  destruct (disk sh !! k) eqn:Hd.
  - intros _. eauto.
  - destruct (bool_decide (k ∈ cols)); [done|].
    intros Hc. apply Hw in Hc. rewrite Hd in Hc. by destruct Hc.
Qed.

Lemma open_cache_on_file file : cache_on_file (snd (SimpleOODB file)).
Proof.
  intros k Hc.
  assert (is_Some (shelf_view (snd (SimpleOODB file)) k)) as Hv.
  { unfold shelf_view. destruct Hc as [c ->]. eauto. }
  rewrite open_view in Hv. rewrite open_disk.
  destruct (decide (k = "indexes")) as [->|Hne].
  - destruct (file !! "indexes"); [eauto|].
    rewrite bool_decide_eq_true_2 by apply indexes_in_COLLECTIONS. eauto.
  - done.
Qed.

Lemma reachable_cache_on_file sh : reachable sh -> cache_on_file sh.
Proof.
  induction 1 as [|sh C k r _ IH|sh C key _ IH|sh _ IH|sh m _ IH|sh rid _ IH
                  |sh a store _ IH|sh a store _ IH|sh _ IH];
    try (match goal with
         | |- cache_on_file (snd (?m ?sh)) =>
             let Hm := fresh in
             assert (reads m) as Hm by auto with reads;
             exact (loads_cache_on_file sh _ (Hm sh) IH)
         end).
  - apply open_cache_on_file.
  - by apply put_cache_on_file.
  - apply sync_cache_on_file.
  - apply open_cache_on_file.
Qed.

(** [get] on a shelf whose cache is on file answers from what a read of
    the collection finds. *)
Lemma get_of_view C key sh sh' :
  cache_on_file sh -> cache_on_file sh' ->
  shelf_view sh' C = shelf_view sh C ->
  fst (get C key sh') = fst (get C key sh).
Proof.
  intros Hw Hw' Hv. rewrite !get_fst, !collection_of_view by done.
  by rewrite Hv.
Qed.

(* ===================================================================== *)
(** ** More on [put]: frame, write-through, failure                       *)
(* ===================================================================== *)

Lemma put_view_other C k r sh C' :
  C' <> C -> (C = "artifacts" -> C' <> "indexes") ->
  shelf_view (snd (put C k r sh)) C' = shelf_view sh C'.
Proof.
  intros Hne Hix. destruct (shelf_view sh C) as [col|] eqn:Hv.
  - assert (shelf_view
              (mkShelf (disk sh) (<[C := dict_set k r col]> (cache sh))) C'
            = shelf_view sh C') as Hv2.
    { rewrite view_insert_cache_ne by done. by destruct sh. }
    rewrite (put_unfold _ _ _ _ _ Hv). cbv zeta.
    destruct (String.eqb_spec C "artifacts") as [HC|_].
    + set (sh2 := mkShelf _ _) in *.
      pose proof (update_title_index_view k r sh2 C' (Hix HC)) as Hu.
      destruct (update_title_index k r sh2) as [[[]|e] sh3]; cbn [fst snd] in *.
      * by rewrite shelf_sync_view, Hu.
      * by rewrite Hu.
    + by rewrite shelf_sync_view.
  - by rewrite (put_absent _ _ _ _ Hv).
Qed.


Lemma put_ok_synced C k r sh :
  fst (put C k r sh) = Ok tt ->
  exists sh0, snd (put C k r sh) = snd (shelf_sync sh0).
Proof.
  destruct (shelf_view sh C) as [col|] eqn:Hv.
  - rewrite (put_unfold _ _ _ _ _ Hv). cbv zeta.
    destruct (String.eqb C "artifacts"); [|by eauto].
    destruct (update_title_index k r _) as [[[]|e] sh3]; cbn [fst snd];
      [by eauto|done].
  - by rewrite (put_absent _ _ _ _ Hv).
Qed.

Lemma open_get_kept file c col k v :
  file !! c = Some col -> dict_get k col = Some v ->
  fst (get c (VStr k) (snd (SimpleOODB file))) = Ok v.
Proof.
  intros Hc Hk. rewrite get_str_fst.
  rewrite collection_of_view by apply open_cache_on_file.
  rewrite open_view. destruct (decide (c = "indexes")) as [->|Hne].
  - rewrite Hc. simpl.
    destruct (dict_mem "by_title" col) eqn:Hm; simpl.
    + by rewrite Hk.
    + rewrite dict_get_set_ne, Hk; [done|].
      intros <-. unfold dict_mem in Hm. by rewrite Hk in Hm.
  - rewrite Hc. simpl. by rewrite Hk.
Qed.

(** X2.  When [put] returns, nothing is left in the write-back cache: the
    record sits in the dbm object of the shelf, and once the store is
    closed a program that opens the file reads the record back. *)
Theorem put_flushes_cache (sh : Shelf) (C k : string) (r : Value) :
  fst (put C k r sh) = Ok tt ->
  let sh' := snd (put C k r sh) in
  cache sh' = ∅ /\
  (exists col, disk sh' !! C = Some col /\ dict_get k col = Some r) /\
  fst (get C (VStr k) (snd (SimpleOODB (close sh')))) = Ok r.
Proof.
  intros Hok sh'.
  destruct (put_ok_synced _ _ _ _ Hok) as [sh0 Hs].
  assert (cache sh' = ∅) as Hc by (unfold sh'; by rewrite Hs).
  destruct (shelf_view sh C) as [col|] eqn:Hv;
    [|by rewrite (put_absent _ _ _ _ Hv) in Hok].
  pose proof (put_view_same C k r sh col Hv) as Hv'. fold sh' in Hv'.
  assert (close sh' !! C = Some (dict_set k r col)) as Hcl
    by (by rewrite close_lookup).
  unfold shelf_view in Hv'. rewrite Hc, lookup_empty in Hv'.
  split; [done|]. split.
  - exists (dict_set k r col). split; [done|]. apply dict_get_set_eq.
  - apply open_get_kept with (dict_set k r col); [done|].
    apply dict_get_set_eq.
Qed.

Lemma attr_title_non_artifact obj :
  (forall a, obj <> VArtifact a) -> attr_title obj = Raise AttributeError.
Proof. intros H. destruct obj; try done. by destruct (H a). Qed.

(** [put('artifacts', k, obj)] for an object without [title]. *)
Lemma put_non_artifact_run k obj sh col ix :
  shelf_view sh "artifacts" = Some col ->
  shelf_view sh "indexes" = Some ix ->
  (forall a, obj <> VArtifact a) ->
  put "artifacts" k obj sh
  = (Raise AttributeError,
     mkShelf (disk sh)
       (<["indexes" := match dict_get "by_title" ix with
                       | Some _ => ix
                       | None => dict_set "by_title" (VDict []) ix
                       end]>
          (<["artifacts" := dict_set k obj col]> (cache sh)))).
Proof.
  intros Hva Hvi Hobj. rewrite (put_unfold _ _ _ _ _ Hva). cbv zeta.
  simpl String.eqb. cbv iota. rewrite update_title_index_unfold.
  rewrite view_insert_cache_ne by done.
  replace (shelf_view (mkShelf (disk sh) (cache sh)) "indexes")
    with (Some ix) by (by destruct sh).
  cbv zeta. by rewrite (attr_title_non_artifact _ Hobj).
Qed.

(** X3.  A [put] to ['artifacts'] of an object that is not an [Artifact]
    raises [AttributeError] only after the object was assigned: the dbm
    object is untouched, yet [get] returns the object, and the next
    [close] writes it to the file, where a program that opens the file
    finds it. *)
Theorem put_non_artifact_is_kept (sh : Shelf) (k : string) (obj : Value) :
  is_Some (disk sh !! "artifacts") ->
  is_Some (disk sh !! "indexes") ->
  (forall a, obj <> VArtifact a) ->
  let sh' := snd (put "artifacts" k obj sh) in
  fst (put "artifacts" k obj sh) = Raise AttributeError /\
  disk sh' = disk sh /\
  fst (get "artifacts" (VStr k) sh') = Ok obj /\
  (exists col, close sh' !! "artifacts" = Some col /\
               dict_get k col = Some obj) /\
  fst (get "artifacts" (VStr k) (snd (SimpleOODB (close sh')))) = Ok obj.
Proof.
  intros Ha Hi Hobj sh'.
  destruct (view_of_disk _ _ Ha) as [col Hva].
  destruct (view_of_disk _ _ Hi) as [ix Hvi].
  unfold sh'. rewrite (put_non_artifact_run _ _ _ _ _ Hva Hvi Hobj).
  cbn [fst snd disk]. split; [done|]. split; [done|].
  set (sh1 := mkShelf _ _).
  assert (shelf_view sh1 "artifacts" = Some (dict_set k obj col)) as Hv1.
  { unfold sh1. rewrite view_insert_cache_ne by done.
    apply view_insert_cache_eq. }
  assert (close sh1 !! "artifacts" = Some (dict_set k obj col)) as Hcl
    by (by rewrite close_lookup).
  split; [|split].
  - rewrite (get_str_present "artifacts" k sh1 _ Ha Hv1).
    by rewrite dict_get_set_eq.
  - exists (dict_set k obj col). split; [done|apply dict_get_set_eq].
  - apply open_get_kept with (dict_set k obj col); [done|].
    apply dict_get_set_eq.
Qed.

Lemma put_artifacts_outcome_aux sh k obj col :
  shelf_view sh "artifacts" = Some col ->
  fst (put "artifacts" k obj sh)
  = match shelf_view sh "indexes" with
    | None => Raise KeyError
    | Some ix =>
        match obj with
        | VArtifact _ =>
            match dict_get "by_title" ix with
            | None | Some (VDict _) => Ok tt
            | Some _ => Raise TypeError
            end
        | _ => Raise AttributeError
        end
    end.
Proof.
  intros Hva.
  rewrite (put_unfold _ _ _ _ _ Hva). cbv zeta. simpl String.eqb. cbv iota.
  rewrite update_title_index_unfold.
  rewrite view_insert_cache_ne by done.
  replace (shelf_view (mkShelf (disk sh) (cache sh)) "indexes")
    with (shelf_view sh "indexes") by (by destruct sh).
  destruct (shelf_view sh "indexes") as [ix|]; [|done]. cbv zeta.
  destruct obj; try done. cbn [attr_title].
  destruct (dict_get "by_title" ix) as [idx|] eqn:Hb.
  - rewrite Hb. simpl. by destruct idx.
  - by rewrite dict_get_set_eq.
Qed.

(** X4.  The outcome of [put('artifacts', k, obj)] on a store that has
    ['artifacts']: [KeyError] without an ['indexes'] collection;
    [AttributeError] when [obj] is not an [Artifact]; [TypeError] when
    ['by_title'] holds something other than a mapping; it returns in every
    other case, an absent ['by_title'] being created. *)
Theorem put_artifacts_outcome (sh : Shelf) (k : string) (obj : Value) :
  is_Some (disk sh !! "artifacts") ->
  fst (put "artifacts" k obj sh)
  = match shelf_view sh "indexes" with
    | None => Raise KeyError
    | Some ix =>
        match obj with
        | VArtifact _ =>
            match dict_get "by_title" ix with
            | None | Some (VDict _) => Ok tt
            | Some _ => Raise TypeError
            end
        | _ => Raise AttributeError
        end
    end.
Proof.
  intros Ha. destruct (view_of_disk _ _ Ha) as [col Hva].
  by apply put_artifacts_outcome_aux with col.
Qed.

(* ===================================================================== *)
(** ** Reads, [save], [close] and re-opening                              *)
(* ===================================================================== *)

Lemma loads_get C key sh sh' :
  loads sh sh' -> fst (get C key sh') = fst (get C key sh).
Proof. intros Hl. by rewrite !get_fst, (loads_collection_of _ _ _ _ Hl). Qed.

(** X5.  The reading methods ([get], [is_on_loan], [display_status] and
    the two queries, with either kind of [store] argument, raising or not)
    leave the file as it is, change nothing of what a later [close] writes,
    and change no answer of a later [get]: all they do to the shelf is to
    load entries into its cache. *)
Theorem reading_methods_change_nothing (sh : Shelf) :
  let unchanged sh' :=
    disk sh' = disk sh /\ close sh' = close sh /\
    forall C key, fst (get C key sh') = fst (get C key sh) in
  (forall C key, unchanged (snd (get C key sh))) /\
  (forall a store, unchanged (snd (is_on_loan a store sh))) /\
  (forall a store, unchanged (snd (display_status a store sh))) /\
  (forall m, unchanged (snd (query_artifacts_by_material m sh))) /\
  (forall rid, unchanged (snd (query_conservation_by_restorer rid sh))).
Proof.
  intros unchanged.
  assert (forall sh', loads sh sh' -> unchanged sh') as H.
  { intros sh' Hl. split; [by destruct Hl|]. split; [by apply loads_close|].
    intros C key. by apply loads_get. }
  split; [|split; [|split; [|split]]]; intros; apply H.
  - apply reads_get.
  - apply reads_is_on_loan.
  - apply reads_display_status.
  - apply reads_query_artifacts_by_material.
  - apply reads_query_conservation_by_restorer.
Qed.


Lemma has_title_index_put C k r sh :
  has_title_index sh -> has_title_index (snd (put C k r sh)).
Proof.
  intros (ix & idx & Hv & Hb).
  destruct (shelf_view sh C) as [col|] eqn:HvC;
    [|rewrite (put_absent _ _ _ _ HvC); by exists ix, idx].
  destruct (decide (C = "indexes")) as [->|Hci].
  - assert (col = ix) as -> by congruence.
    exists (dict_set k r ix). rewrite (put_view_same _ _ _ _ _ HvC).
    destruct (decide (k = "by_title")) as [->|Hk].
    + exists r. split; [done|apply dict_get_set_eq].
    + exists idx. split; [done|]. by rewrite dict_get_set_ne.
  - destruct (String.eqb_spec C "artifacts") as [->|Hca].
    + rewrite (put_unfold _ _ _ _ _ HvC). cbv zeta. simpl String.eqb.
      cbv iota. rewrite update_title_index_unfold.
      rewrite view_insert_cache_ne by done.
      replace (shelf_view (mkShelf (disk sh) (cache sh)) "indexes")
        with (Some ix) by (by destruct sh).
      cbv zeta. rewrite Hb. simpl.
      destruct (attr_title r); cbn [snd];
        [destruct (value_setitem _ _ _) as [idx'|]; cbn [snd]|].
      * exists (dict_set "by_title" idx' ix), idx'.
        rewrite shelf_sync_view, view_insert_cache_eq.
        split; [done|apply dict_get_set_eq].
      * exists ix, idx. by rewrite view_insert_cache_eq.
      * exists ix, idx. by rewrite view_insert_cache_eq.
    + exists ix, idx. split; [|done].
      rewrite put_view_other; [done|done|done].
Qed.

Lemma has_title_index_open file : has_title_index (snd (SimpleOODB file)).
Proof.
  unfold has_title_index. rewrite open_view. simpl.
  destruct (dict_mem "by_title" (default [] (file !! "indexes"))) eqn:Hm.
  - unfold dict_mem in Hm.
    destruct (dict_get "by_title" (default [] (file !! "indexes"))) eqn:E;
      [eauto|done].
  - eexists _, _. split; [done|]. apply dict_get_set_eq.
Qed.

Lemma has_title_index_view sh sh' :
  shelf_view sh' "indexes" = shelf_view sh "indexes" ->
  has_title_index sh -> has_title_index sh'.
Proof. intros Hv (ix & idx & H1 & H2). exists ix, idx. by rewrite Hv. Qed.

Lemma reachable_has_title_index sh : reachable sh -> has_title_index sh.
Proof.
  induction 1 as [|sh C k r _ IH|sh C key _ IH|sh _ IH|sh m _ IH|sh rid _ IH
                  |sh a store _ IH|sh a store _ IH|sh _ IH];
    try (match goal with
         | |- has_title_index (snd (?m ?sh)) =>
             let Hm := fresh in
             assert (reads m) as Hm by auto with reads;
             apply (has_title_index_view sh); [|exact IH];
             exact (loads_view _ _ _ (Hm sh))
         end).
  - apply has_title_index_open.
  - by apply has_title_index_put.
  - apply (has_title_index_view sh); [apply shelf_sync_view|done].
  - apply has_title_index_open.
Qed.

(** X7.  What every store reached through the module keeps, whatever was
    [put] and whether or not a [put] raised: the seven collections are on
    file, the shelf has no other key, ['indexes'] has an entry under
    ['by_title'], and the cache holds nothing the file lacks.  So [put] to
    one of the seven collections never raises [KeyError]. *)
Theorem reachable_store_invariants (sh : Shelf) :
  reachable sh ->
  (forall c, c ∈ COLLECTIONS -> is_Some (disk sh !! c)) /\
  known_keys sh /\
  has_title_index sh /\
  cache_on_file sh /\
  (forall c k r, c ∈ COLLECTIONS -> fst (put c k r sh) <> Raise KeyError).
Proof.
  intros Hr. split; [|split; [|split; [|split]]].
  - intros c Hc. by apply reachable_has_collections.
  - by apply reachable_known_keys.
  - by apply reachable_has_title_index.
  - by apply reachable_cache_on_file.
  - intros c k r Hc.
    pose proof (reachable_has_collections sh c Hr Hc) as Hd.
    destruct (view_of_disk _ _ Hd) as [col Hv].
    destruct (decide (c = "artifacts")) as [->|Hne].
    + rewrite (put_artifacts_outcome_aux sh k r col Hv).
      destruct (reachable_has_title_index sh Hr) as (ix & idx & -> & Hb).
      destruct r; try done. rewrite Hb. by destruct idx.
    + by rewrite (put_ok_other _ _ _ _ _ Hv Hne).
Qed.

(** X8.  Closing a store reached through the module and opening its file
    again gives a store in which every [get], with or without a key,
    answers as before the [close]. *)
Theorem close_reopen_round_trip (sh : Shelf) (C : string) (key : Value) :
  reachable sh ->
  fst (SimpleOODB (close sh)) = Ok tt /\
  fst (get C key (snd (SimpleOODB (close sh)))) = fst (get C key sh).
Proof.
  intros Hr. split; [apply open_ok|].
  apply get_of_view;
    [by apply reachable_cache_on_file|apply open_cache_on_file|].
  rewrite open_view, !close_lookup.
  destruct (decide (C = "indexes")) as [->|Hne].
  - destruct (reachable_has_title_index sh Hr) as (ix & idx & Hv & Hb).
    rewrite Hv. simpl. unfold dict_mem. by rewrite Hb.
  - destruct (shelf_view sh C) as [col|] eqn:Hv; [done|].
    destruct (bool_decide (C ∈ COLLECTIONS)) eqn:E; [|done].
    apply bool_decide_eq_true in E.
    destruct (view_of_disk _ _ (reachable_has_collections sh C Hr E))
      as [col Hcol].
    congruence.
Qed.

(* ===================================================================== *)
(** ** More on the queries                                                *)
(* ===================================================================== *)

Lemma filterM_restorer rid vs :
  Forall is_conservation vs ->
  filterM (restorer_matches rid) vs = Ok (List.filter (restorer_hit rid) vs).
Proof.
  induction 1 as [|v vs [c ->] _ IH]; [done|].
  cbn [filterM List.filter]. unfold restorer_matches at 1.
  cbn [attr_restorer_id restorer_hit]. rewrite IH.
  by destruct (String.eqb (restorer_id c) rid).
Qed.

Lemma query_conservation_by_restorer_fst rid sh :
  fst (query_conservation_by_restorer rid sh)
  = match shelf_view sh "conservations" with
    | Some col => filterM (restorer_matches rid) (dict_values col)
    | None => Raise KeyError
    end.
Proof.
  unfold query_conservation_by_restorer.
  pose proof (shelf_getitem_fst "conservations" sh) as Hg.
  destruct (shelf_view sh "conservations") as [col|].
  - by rewrite (bind_ok _ _ _ _ Hg).
  - by rewrite (bind_raise _ _ _ _ Hg).
Qed.

(** X9.  When ['conservations'] holds [ConservationRecord] objects,
    [query_conservation_by_restorer(rid)] returns, in the order of the
    collection, exactly the records whose [restorer_id] equals [rid]; the
    comparison is exact, so an id differing only in case finds nothing it
    should not.  Without a ['conservations'] collection the query raises
    [KeyError], where [get] would return [None]. *)
Theorem query_by_restorer_exact (sh : Shelf) (rid : string) :
  (forall col,
     shelf_view sh "conservations" = Some col ->
     Forall is_conservation (dict_values col) ->
     fst (query_conservation_by_restorer rid sh)
     = Ok (List.filter (restorer_hit rid) (dict_values col)) /\
     forall v, v ∈ List.filter (restorer_hit rid) (dict_values col) <->
               v ∈ dict_values col /\
               exists c, v = VConservation c /\ restorer_id c = rid) /\
  (shelf_view sh "conservations" = None ->
     fst (query_conservation_by_restorer rid sh) = Raise KeyError).
Proof.
  split.
  - intros col Hv Hty. split.
    + rewrite query_conservation_by_restorer_fst, Hv.
      by apply filterM_restorer.
    + intros v. rewrite list_elem_of_In, filter_In, <- list_elem_of_In.
      split; intros [Hin Hhit]; (split; [done|]).
      * destruct v; try done. simpl in Hhit.
        apply String.eqb_eq in Hhit. eauto.
      * destruct Hhit as (c & -> & <-). simpl. apply String.eqb_refl.
  - intros Hv. by rewrite query_conservation_by_restorer_fst, Hv.
Qed.

Lemma contains_empty s : contains "" s = true.
Proof. by destruct s. Qed.

(** X10.  The empty search string matches every material that is not
    itself empty: over [Artifact] records,
    [query_artifacts_by_material('')] returns exactly the artifacts whose
    material is a non-empty string. *)
Theorem query_empty_string_returns_all (sh : Shelf) (col : Collection) :
  shelf_view sh "artifacts" = Some col ->
  Forall is_artifact (dict_values col) ->
  exists l,
    fst (query_artifacts_by_material "" sh) = Ok l /\
    forall v, v ∈ l <->
              v ∈ dict_values col /\
              exists a s, v = VArtifact a /\ material a = Some s /\ s <> "".
Proof.
  intros Hv Hty. exists (List.filter (material_hit "") (dict_values col)).
  split.
  - rewrite query_artifacts_by_material_fst, Hv. by apply filterM_material.
  - intros v. rewrite list_elem_of_In, filter_In, <- list_elem_of_In.
    rewrite material_hit_spec, (lower_on_ascii "") by done. simpl ascii_lower.
    split.
    + intros [Hin (a & s & Hva & Hm & Hs & _)]. split; [done|]. by exists a, s.
    + intros [Hin (a & s & Hva & Hm & Hs)]. split; [done|].
      exists a, s. repeat split; try done. apply contains_empty.
Qed.

Lemma material_matches_non_artifact m v :
  (forall a, v <> VArtifact a) -> material_matches m v = Raise AttributeError.
Proof. intros H. destruct v; try done. by destruct (H a). Qed.

Lemma material_matches_raise m v e :
  material_matches m v = Raise e -> e = AttributeError.
Proof.
  unfold material_matches. destruct v; simpl; try by intros [= <-].
  destruct (material a) as [s|]; [|done]. by destruct (String.eqb s "").
Qed.

(** One object without [material] makes the whole comprehension raise. *)
Lemma filterM_material_poisoned m vs v :
  v ∈ vs -> (forall a, v <> VArtifact a) ->
  filterM (material_matches m) vs = Raise AttributeError.
Proof.
  intros Hin Hv. induction vs as [|x vs IH]; [by apply elem_of_nil in Hin|].
  cbn [filterM]. destruct (material_matches m x) as [b|e] eqn:Hx.
  - apply elem_of_cons in Hin as [->|Hin].
    + by rewrite material_matches_non_artifact in Hx.
    + by rewrite IH.
  - by rewrite (material_matches_raise _ _ _ Hx).
Qed.

Lemma dict_values_set_elem_of k (v : Value) d : v ∈ dict_values (dict_set k v d).
Proof.
  unfold dict_values. induction d as [|[k' v'] d IH]; simpl; [left|].
  destruct (String.eqb k k'); simpl; [left|by right].
Qed.

(** X11.  A failed [put] breaks the material query: after
    [put('artifacts', k, obj)] with an [obj] that is not an [Artifact]
    (a call that raises, but only after assigning [obj]), every
    [query_artifacts_by_material] raises [AttributeError], whatever else
    the collection holds, and it keeps doing so after the store is closed
    and opened again. *)
Theorem failed_put_breaks_material_query (sh : Shelf) (k : string)
  (obj : Value) (m : string) :
  is_Some (disk sh !! "artifacts") ->
  (forall a, obj <> VArtifact a) ->
  let sh' := snd (put "artifacts" k obj sh) in
  fst (query_artifacts_by_material m sh') = Raise AttributeError /\
  fst (query_artifacts_by_material m (snd (SimpleOODB (close sh'))))
  = Raise AttributeError.
Proof.
  intros Ha Hobj sh'.
  destruct (view_of_disk _ _ Ha) as [col Hva].
  assert (shelf_view sh' "artifacts" = Some (dict_set k obj col)) as Hv'
    by (by apply put_view_same).
  split.
  - rewrite query_artifacts_by_material_fst, Hv'.
    apply filterM_material_poisoned with obj; [|done].
    apply dict_values_set_elem_of.
  - rewrite query_artifacts_by_material_fst, open_view.
    rewrite decide_False by done. rewrite close_lookup, Hv'.
    apply filterM_material_poisoned with obj; [|done].
    apply dict_values_set_elem_of.
Qed.

(* ===================================================================== *)
(** ** More on the resolvers                                              *)
(* ===================================================================== *)



Lemma scan_loans_falsy col id ids :
  truthy (default VNone (dict_get id col)) = false ->
  scan_loans col (id :: ids) = scan_loans col ids.
Proof. intros H. simpl. by rewrite H. Qed.

(** X13.  What [is_on_loan] does with objects that are not loans, on the
    raw shelf: an id that resolves to a false object ([None], [''], [{}])
    is passed over like a dangling one, and the first id that resolves to a
    true object without [status] (any other dataclass instance, a
    non-empty string or mapping) makes it raise [AttributeError], even
    when an ['ACTIVE'] loan follows in the list. *)
Theorem is_on_loan_on_other_objects (a : Artifact) (sh : Shelf) :
  forall pre id post v,
    loans a = pre ++ id :: post ->
    Forall (fun i => loan_skipped sh i \/
                     exists u, fst (get "loans" (VStr i) sh) = Ok u /\
                               truthy u = false) pre ->
    fst (get "loans" (VStr id) sh) = Ok v ->
    truthy v = true ->
    (forall l, v <> VLoan l) ->
    fst (is_on_loan a TheShelf sh) = Raise AttributeError.
Proof.
  intros pre id post v Hl Hpre Hid Htrue Hv.
  unfold is_on_loan. rewrite Hl, is_on_loan_from_shelf. clear Hl.
  induction Hpre as [|i pre Hi _ IH].
  - rewrite get_str_fst in Hid. inversion Hid as [Hd].
    simpl. rewrite Hd, Htrue. destruct v; try done. by destruct (Hv l).
  - simpl app. destruct Hi as [Hi|(u & Hu & Hf)].
    + by rewrite scan_loans_skip.
    + rewrite scan_loans_falsy; [done|].
      rewrite get_str_fst in Hu. inversion Hu as [Hd]. by rewrite Hd.
Qed.

(* ===================================================================== *)
(** ** [current_version] after [versions.append]                          *)
(* ===================================================================== *)

(** X14.  Appending a version makes it the current one exactly when no
    version already owned has a greater time stamp; otherwise the current
    version stays.  An appended version with a time stamp equal to the
    greatest takes over. *)
Theorem current_version_after_append (a : Artifact) (v : ArtifactVersion) :
  (Forall (fun u => String.leb (timestamp u) (timestamp v) = true)
     (versions a) ->
   current_version (append_version a v) = Some v) /\
  (Exists (fun u => String.ltb (timestamp v) (timestamp u) = true)
     (versions a) ->
   current_version (append_version a v) = current_version a).
Proof.
  split.
  - intros Hall. unfold current_version, append_version, last_item.
    cbn [versions].
    rewrite (last_sorted_decomp timestamp (versions a) [] v);
      [by destruct (versions a)|by apply Forall_key_le_leb|constructor].
  - intros Hex.
    assert (versions a <> []) as Hne by (intros E; rewrite E in Hex; inversion Hex).
    destruct (greatest_last_exists timestamp (versions a) Hne)
      as (l1 & x & l2 & Hl & H1 & H2).
    assert (String.ltb (timestamp v) (timestamp x) = true) as Hvx.
    { apply Exists_exists in Hex as (u & Hu & Hlt).
      assert (key_le timestamp u x) as Hux.
      { rewrite Hl in Hu.
        apply elem_of_app in Hu as [Hu|Hu].
        - rewrite Forall_forall in H1. by apply H1.
        - apply elem_of_cons in Hu as [->|Hu].
          + unfold key_le. apply StrOrder.ltb_irrefl.
          + rewrite Forall_forall in H2. specialize (H2 u Hu).
            unfold key_le, key_lt in *.
            destruct (String.ltb (timestamp x) (timestamp u)) eqn:E; [|done].
            pose proof (StrOrder.ltb_trans _ _ _ H2 E) as Hc.
            by rewrite StrOrder.ltb_irrefl in Hc. }
      unfold key_le in Hux. by apply StrOrder.lt_le_trans with (timestamp u). }
    unfold current_version, append_version, last_item. cbn [versions].
    rewrite Hl. rewrite <- app_assoc. cbn [app].
    rewrite (last_sorted_decomp timestamp l1 (l2 ++ [v]) x);
      [|done|apply Forall_app; split; [done|by constructor]].
    rewrite (last_sorted_decomp timestamp l1 l2 x) by done.
    by destruct l1.
Qed.

(* ===================================================================== *)
(** ** The title index over several [put]s                                *)
(* ===================================================================== *)



(* ===================================================================== *)
(** ** A run of [demo()]                                                  *)
(* ===================================================================== *)

Lemma put_view_all C k r sh c :
  C <> "artifacts" ->
  shelf_view (snd (put C k r sh)) c
  = if decide (c = C) then dict_set k r <$> shelf_view sh C
    else shelf_view sh c.
Proof.
  intros HC. destruct (decide (c = C)) as [->|Hne].
  - destruct (shelf_view sh C) as [col|] eqn:Hv.
    + by rewrite (put_view_same _ _ _ _ _ Hv).
    + by rewrite (put_absent _ _ _ _ Hv).
  - by apply put_view_other.
Qed.

Lemma dict_get_singleton {V : Type} k (v : V) : dict_get k [(k, v)] = Some v.
Proof. simpl. by rewrite String.eqb_refl. Qed.

(** [display_status] on the raw shelf, given what [is_on_loan] answers. *)
Lemma display_status_run a sh onloan loan :
  fst (is_on_loan a TheShelf sh) = Ok (onloan, loan) ->
  Forall (resolves_within sh "conservations" is_conservation)
    (conservation_records a) ->
  fst (display_status a TheShelf sh)
  = Ok {| st_artifact_id := artifact_id a;
          st_title := title a;
          st_on_loan := onloan;
          st_loan_ref := match loan with
                         | VLoan l => Some (loan_id l)
                         | _ => None
                         end;
          st_current_version := version_id <$> current_version a;
          st_last_conservation :=
            record_id <$>
              last_item (sorted date
                           (resolved_conservations sh (conservation_records a)))
       |}.
Proof.
  intros Hloan Hty.
  assert ((onloan = false /\ loan = VNone) \/
          (onloan = true /\ exists l, loan = VLoan l /\ status l = "ACTIVE"))
    as Hshape.
  { unfold is_on_loan in Hloan. rewrite is_on_loan_from_shelf in Hloan.
    by apply scan_loans_shape in Hloan. }
  unfold display_status. rewrite (bind_ok _ _ _ _ Hloan).
  pose proof (reads_is_on_loan a TheShelf sh) as Hl.
  set (sh1 := snd (is_on_loan a TheShelf sh)) in *.
  set (latest := last_item (sorted date _)).
  set (block := match conservation_records a with
                | [] => ret VNone
                | _ => _
                end).
  assert (fst (block sh1) = Ok (from_option VConservation VNone latest)) as Hb.
  { unfold block, latest.
    destruct (conservation_records a) as [|id ids] eqn:Hids; [done|].
    rewrite (bind_ok _ _ _ _ (mapM_resolve "conservations" (id :: ids) sh1)).
    rewrite (loads_collection_of _ _ _ _ Hl).
    rewrite (filter_truthy_resolved sh (id :: ids) Hty).
    destruct (resolved_conservations sh (id :: ids)) as [|c cs] eqn:Hrs;
      [done|].
    cbn [map]. unfold lift. cbn [fst].
    apply (latest_by_date_conservations (c :: cs)). }
  rewrite (bind_ok _ _ _ _ Hb). unfold bind, lift, ret. cbn [fst].
  assert (attr_if attr_loan_id loan
          = Ok match loan with VLoan l => Some (loan_id l) | _ => None end)
    as ->.
  { by destruct Hshape as [[_ ->]|[_ (l & -> & _)]]. }
  assert (attr_if attr_record_id (from_option VConservation VNone latest)
          = Ok (record_id <$> latest)) as ->.
  { by destruct latest. }
  done.
Qed.

(** Read a collection through a chain of [put]s, one [put] at a time. *)
Ltac views :=
  repeat (rewrite put_view_all by done;
          first [rewrite decide_True by done|rewrite decide_False by done]).

Lemma demo_try_eq d :
  demo_try d
  = (put "people" (new_id "person" (hex_person d))
       (VPerson (mkPerson (new_id "person" (hex_person d)) "Arun Kumar"
                   (Some "Restorer"))) >>
     put "institutions" (new_id "inst" (hex_inst1 d))
       (VInstitution (mkInstitution (new_id "inst" (hex_inst1 d))
                        "Metro Museum" None)) >>
     put "institutions" (new_id "inst" (hex_inst2 d))
       (VInstitution (mkInstitution (new_id "inst" (hex_inst2 d))
                        "City Archive" None)) >>
     put "digital" (new_id "dig" (hex_dig d)) (VSurrogate (demo_dig_of d)) >>
     put "conservations" (new_id "cons" (hex_cons d))
       (VConservation (demo_cons_of d)) >>
     put "loans" (new_id "loan" (hex_loan d)) (VLoan (demo_loan_of d)) >>
     put "artifacts" (new_id "art" (hex_art d)) (VArtifact (demo_art_of d)) >>
     demo_reads d).
Proof. reflexivity. Qed.

Lemma demo_views_loads d sh sh' :
  loads sh sh' -> demo_views d sh -> demo_views d sh'.
Proof.
  intros Hl (Hw & H1 & H2 & H3 & H4). split; [by apply (loads_cache_on_file sh)|].
  by rewrite !(loads_view _ _ _ Hl).
Qed.

Lemma get_singleton C k v sh :
  cache_on_file sh -> shelf_view sh C = Some [(k, v)] ->
  fst (get C (VStr k) sh) = Ok v.
Proof.
  intros Hw Hv. rewrite get_str_fst, collection_of_view, Hv by done.
  cbn [from_option id]. by rewrite dict_get_singleton.
Qed.

(** One step of a run whose state keeps [demo_views]. *)
Ltac demo_step H Hv :=
  match type of H with
  | fst (?m ?sh) = Ok _ =>
      rewrite (bind_ok _ _ _ _ H);
      let Hm := fresh in
      assert (reads m) as Hm by auto with reads;
      apply (demo_views_loads _ _ _ (Hm sh)) in Hv;
      clear Hm H;
      generalize dependent (snd (m sh)); clear sh; intros sh Hv
  end.

Lemma demo_reads_run d sh :
  demo_views d sh -> fst (demo_reads d sh) = Ok (demo_expected d).
Proof.
  intros Hv. unfold demo_reads.
  (* a = store.get('artifacts', art.artifact_id) *)
  assert (fst (get "artifacts" (VStr (new_id "art" (hex_art d))) sh)
          = Ok (VArtifact (demo_art_of d))) as H.
  { destruct Hv as (Hw & H1 & _). by apply get_singleton. }
  demo_step H Hv.
  (* a.display_status(store._shelf) *)
  cbn [call_display_status].
  assert (fst (display_status (demo_art_of d) TheShelf sh)
          = Ok (out_status (demo_expected d))) as H.
  { destruct Hv as (Hw & _ & _ & H3 & H4).
    rewrite (display_status_run _ _ true (VLoan (demo_loan_of d))).
    - unfold resolved_conservations.
      cbn [conservation_records demo_art_of omap list_omap].
      rewrite (get_singleton _ _ _ _ Hw H3). reflexivity.
    - unfold is_on_loan. rewrite is_on_loan_from_shelf.
      rewrite collection_of_view, H4 by done.
      cbn [loans demo_art_of scan_loans from_option id].
      rewrite dict_get_singleton. reflexivity.
    - constructor; [|constructor]. right.
      exists (VConservation (demo_cons_of d)).
      split; [by apply get_singleton|by eexists]. }
  demo_step H Hv.
  (* store.query_artifacts_by_material('oil') *)
  assert (fst (query_artifacts_by_material "oil" sh)
          = Ok [VArtifact (demo_art_of d)]) as H.
  { destruct Hv as (_ & H1 & _).
    rewrite query_artifacts_by_material_fst, H1.
    cbn [dict_values map snd filterM material_matches attr_material
         demo_art_of material truthy].
    by rewrite !lower_on_ascii by done. }
  demo_step H Hv.
  unfold lift at 1. unfold bind at 1. cbn [mapR artifact_line].
  (* store.query_conservation_by_restorer(p1.person_id) *)
  assert (fst (query_conservation_by_restorer (new_id "person" (hex_person d)) sh)
          = Ok [VConservation (demo_cons_of d)]) as H.
  { destruct Hv as (_ & _ & _ & H3 & _).
    rewrite query_conservation_by_restorer_fst, H3.
    cbn [dict_values map snd filterM]. unfold restorer_matches.
    cbn [attr_restorer_id demo_cons_of restorer_id].
    by rewrite String.eqb_refl. }
  demo_step H Hv.
  unfold lift at 1. unfold bind at 1. cbn [mapR conservation_line].
  (* d = store.get('digital', d1.surrogate_id); d.preview_info() *)
  assert (fst (get "digital" (VStr (new_id "dig" (hex_dig d))) sh)
          = Ok (VSurrogate (demo_dig_of d))) as H.
  { destruct Hv as (Hw & _ & H2 & _). by apply get_singleton. }
  demo_step H Hv.
  reflexivity.
Qed.

Lemma reads_demo_reads d : reads (demo_reads d).
Proof.
  unfold demo_reads.
  apply reads_bind; [apply reads_get|]. intros a.
  apply reads_bind.
  { destruct a; try apply reads_lift. apply reads_display_status. }
  intros st. apply reads_bind; [apply reads_query_artifacts_by_material|].
  intros found. apply reads_bind; [apply reads_lift|]. intros lines1.
  apply reads_bind; [apply reads_query_conservation_by_restorer|].
  intros found2. apply reads_bind; [apply reads_lift|]. intros lines2.
  apply reads_bind; [apply reads_get|]. intros dg.
  apply reads_bind; [apply reads_lift|]. intros pv. apply reads_ret.
Qed.

(** One [put] of a run that returned: name the state it left. *)
Ltac put_step H s :=
  match type of H with
  | fst (?m ?sh) = Ok tt =>
      rewrite (bind_ok _ _ _ _ H); set (s := snd (m sh)) in *
  end.

(** The [try] block on a store whose collections are empty. *)
Lemma demo_try_run d sh0 :
  cache_on_file sh0 ->
  Forall (fun c => shelf_view sh0 c = Some [])
    ["people"; "institutions"; "digital"; "conservations"; "loans";
     "artifacts"] ->
  shelf_view sh0 "indexes" = Some [("by_title", VDict [])] ->
  fst (demo_try d sh0) = Ok (demo_expected d) /\
  demo_views d (snd (demo_try d sh0)).
Proof.
  intros Hw Hempty Hix. rewrite demo_try_eq.
  rewrite !Forall_cons in Hempty.
  destruct Hempty as (Ep & Ei & Ed & Ec & El & Ea & _).
  (* the six puts to collections other than 'artifacts' *)
  assert (fst (put "people" (new_id "person" (hex_person d))
                 (VPerson (mkPerson (new_id "person" (hex_person d))
                             "Arun Kumar" (Some "Restorer"))) sh0) = Ok tt)
    as H1 by (eapply put_ok_other; [exact Ep|done]).
  put_step H1 s1.
  assert (fst (put "institutions" (new_id "inst" (hex_inst1 d))
                 (VInstitution (mkInstitution (new_id "inst" (hex_inst1 d))
                                  "Metro Museum" None)) s1) = Ok tt) as H2.
  { eapply put_ok_other; [|done]. unfold s1. views. exact Ei. }
  put_step H2 s2.
  assert (fst (put "institutions" (new_id "inst" (hex_inst2 d))
                 (VInstitution (mkInstitution (new_id "inst" (hex_inst2 d))
                                  "City Archive" None)) s2) = Ok tt) as H3.
  { eapply put_ok_other; [|done]. unfold s2, s1. views.
    rewrite Ei. reflexivity. }
  put_step H3 s3.
  assert (fst (put "digital" (new_id "dig" (hex_dig d))
                 (VSurrogate (demo_dig_of d)) s3) = Ok tt) as H4.
  { eapply put_ok_other; [|done]. unfold s3, s2, s1. views. exact Ed. }
  put_step H4 s4.
  assert (fst (put "conservations" (new_id "cons" (hex_cons d))
                 (VConservation (demo_cons_of d)) s4) = Ok tt) as H5.
  { eapply put_ok_other; [|done]. unfold s4, s3, s2, s1. views. exact Ec. }
  put_step H5 s5.
  assert (fst (put "loans" (new_id "loan" (hex_loan d))
                 (VLoan (demo_loan_of d)) s5) = Ok tt) as H6.
  { eapply put_ok_other; [|done]. unfold s5, s4, s3, s2, s1. views.
    exact El. }
  put_step H6 s6.
  (* what the six puts left *)
  assert (shelf_view s6 "artifacts" = Some []) as Va.
  { unfold s6, s5, s4, s3, s2, s1. views. exact Ea. }
  assert (shelf_view s6 "indexes" = Some [("by_title", VDict [])]) as Vi.
  { unfold s6, s5, s4, s3, s2, s1. by views. }
  assert (shelf_view s6 "digital"
          = Some [(new_id "dig" (hex_dig d), VSurrogate (demo_dig_of d))]) as Vd.
  { unfold s6, s5, s4, s3, s2, s1. views. by rewrite Ed. }
  assert (shelf_view s6 "conservations"
          = Some [(new_id "cons" (hex_cons d), VConservation (demo_cons_of d))])
    as Vc.
  { unfold s6, s5, s4, s3, s2, s1. views. by rewrite Ec. }
  assert (shelf_view s6 "loans"
          = Some [(new_id "loan" (hex_loan d), VLoan (demo_loan_of d))]) as Vl.
  { unfold s6, s5, s4, s3, s2, s1. views. by rewrite El. }
  assert (cache_on_file s6) as Hw6 by (by do 6 apply put_cache_on_file).
  clearbody s6. clear s1 s2 s3 s4 s5 H1 H2 H3 H4 H5 H6.
  (* the put to 'artifacts' *)
  assert (fst (put "artifacts" (new_id "art" (hex_art d))
                 (VArtifact (demo_art_of d)) s6) = Ok tt) as H7.
  { rewrite (put_artifacts_outcome_aux _ _ _ _ Va), Vi. reflexivity. }
  put_step H7 s7.
  assert (demo_views d s7) as Hv7.
  { split; [by apply put_cache_on_file|]. unfold s7.
    rewrite (put_view_same _ _ _ _ _ Va).
    rewrite !put_view_other by done. done. }
  split; [by apply demo_reads_run|].
  by apply (demo_views_loads d s7), Hv7; apply reads_demo_reads.
Qed.

(** X16.  A run of [demo()] on a new file, whatever identifiers [new_id]
    draws and whatever the clock says (two institutions may even draw the
    same id): nothing raises, and it prints the status of the artifact as
    on loan with the ids of its loan, its version and its conservation
    record, the artifact as the one hit for 'oil', the conservation record
    as the one hit for the restorer, and the preview line of the
    surrogate.  The file it leaves gives the artifact back when opened
    again. *)
Theorem demo_on_new_file (d : Draws) :
  fst (demo d ∅) = Ok (demo_expected d) /\
  out_preview (demo_expected d)
  = String.append "Preview("
      (String.append (new_id "dig" (hex_dig d)) ") -> marina_highres.tif (tif)") /\
  fst (get "artifacts" (VStr (new_id "art" (hex_art d)))
         (snd (SimpleOODB (snd (demo d ∅)))))
  = Ok (VArtifact (demo_art_of d)).
Proof.
  assert (fst (demo_try d (snd (SimpleOODB ∅))) = Ok (demo_expected d) /\
          demo_views d (snd (demo_try d (snd (SimpleOODB ∅))))) as [Hout Hv].
  { apply demo_try_run.
    - apply open_cache_on_file.
    - repeat constructor; by vm_compute.
    - by vm_compute. }
  assert (demo d ∅ = (fst (demo_try d (snd (SimpleOODB ∅))),
                      close (snd (demo_try d (snd (SimpleOODB ∅))))))
    as Hdemo.
  { unfold demo. pose proof (open_ok ∅) as Hopen.
    destruct (SimpleOODB ∅) as [[[]|e] sh0]; [|done]. cbn [snd].
    by destruct (demo_try d sh0). }
  rewrite Hdemo. cbn [fst snd]. split; [done|]. split; [reflexivity|].
  destruct Hv as (_ & Ha & _).
  apply open_get_kept with [(new_id "art" (hex_art d), VArtifact (demo_art_of d))].
  - by rewrite close_lookup.
  - apply dict_get_singleton.
Qed.

End Proofs.

(* ===================================================================== *)
(** ** The statements on concrete stores                                  *)
(* ===================================================================== *)

(** The examples below run the model on ASCII text only, where
    [str.lower] is [ascii_lower]. *)
#[global] Existing Instance ascii_str_lower.

Lemma put_get_round_trip_witness :
  fst (get "loans" (VStr "loan_1")
         (snd (put "loans" "loan_1" (VLoan demo_loan) fresh_store)))
  = Ok (VLoan demo_loan) /\
  ("loans" <> "artifacts" ->
   fst (put "loans" "loan_1" (VLoan demo_loan) fresh_store) = Ok tt).
Proof.
  apply (put_get_round_trip fresh_store "loans" "loan_1" (VLoan demo_loan)).
  vm_compute. eauto.
Defined.

Lemma open_ensures_collections_witness :
  fst (get "loans" (VStr "loan_1") (snd (SimpleOODB (close demo_store))))
  = Ok (VLoan demo_loan).
Proof.
  destruct (open_ensures_collections (close demo_store))
    as (_ & _ & _ & _ & _ & _ & H & _).
  apply (H "loans" [("loan_1", VLoan demo_loan)]); by vm_compute.
Defined.



Lemma is_on_loan_first_active_witness :
  fst (is_on_loan (art_with_loans ["gone"; "l_done"; "l_pend"; "l_act"; "l_act2"])
         TheShelf loans_store)
  = Ok (true, VLoan (loan_with "l_act" "ACTIVE")).
Proof.
  destruct (is_on_loan_first_active
              (art_with_loans ["gone"; "l_done"; "l_pend"; "l_act"; "l_act2"])
              loans_store) as [H _].
  apply (H ["gone"; "l_done"; "l_pend"] "l_act" ["l_act2"]).
  - reflexivity.
  - constructor; [left; by vm_compute|].
    constructor; [right; eexists; split; by vm_compute|].
    constructor; [right; eexists; split; by vm_compute|].
    constructor.
  - by vm_compute.
  - reflexivity.
Defined.

Lemma resolvers_need_raw_shelf_witness :
  loans demo_art <> [] /\
  fst (is_on_loan demo_art TheShelf demo_store) = Ok (true, VLoan demo_loan) /\
  fst (is_on_loan demo_art TheOODB demo_store) = Raise TypeError /\
  fst (display_status demo_art TheOODB demo_store) = Raise TypeError.
Proof.
  split; [done|]. split; [by vm_compute|].
  apply (resolvers_need_raw_shelf demo_art demo_store). done.
Defined.

Lemma current_version_latest_witness :
  current_version
    (mkArtifact "art_1" "Portrait of Marina" "Unknown Artist" "1784-01-01"
       None None []
       [mkArtifactVersion "ver_1" "t1" "first" [];
        mkArtifactVersion "ver_2" "t3" "second" [];
        mkArtifactVersion "ver_3" "t3" "third" [];
        mkArtifactVersion "ver_4" "t2" "fourth" []] [] [] [])
  = Some (mkArtifactVersion "ver_3" "t3" "third" []).
Proof.
  match goal with |- current_version ?a = _ =>
    destruct (current_version_latest a) as (_ & _ & H & _)
  end.
  apply (H [mkArtifactVersion "ver_1" "t1" "first" [];
            mkArtifactVersion "ver_2" "t3" "second" []]
           (mkArtifactVersion "ver_3" "t3" "third" [])
           [mkArtifactVersion "ver_4" "t2" "fourth" []]).
  - reflexivity.
  - repeat constructor.
  - repeat constructor.
Defined.

Lemma put_absent_collection_raises_witness :
  let sh := snd (put "loans" "loan_1" (VLoan demo_loan) fresh_store) in
  put "archive" "loan_1" (VLoan demo_loan) sh = (Raise KeyError, sh) /\
  fst (get "archive" (VStr "loan_1") sh) = Ok VNone /\
  fst (get "archive" VNone sh) = Ok (VDict []).
Proof.
  apply (put_absent_collection_raises
           (snd (put "loans" "loan_1" (VLoan demo_loan) fresh_store))
           "archive" "loan_1" (VLoan demo_loan)).
  - apply reach_put, reach_new.
  - apply (bool_decide_eq_false_1 ("archive" ∈ COLLECTIONS)). by vm_compute.
Defined.

Lemma query_by_material_exact_witness :
  fst (query_artifacts_by_material "OIL" materials_store)
  = Ok [VArtifact oil_art].
Proof.
  destruct (query_by_material_exact materials_store "OIL"
              [("art_1", VArtifact oil_art); ("art_2", VArtifact tempera_art)])
    as [H _].
  - by vm_compute.
  - constructor; [by exists oil_art|].
    constructor; [by exists tempera_art|]. constructor.
  - exact H.
Defined.

(** C7 as stated fails.  [blank_art] is stored with a material that is
    present (the empty string, not [None]) and contains the empty search
    string, yet the query for [''] does not return it: the filter tests
    the truth value of [a.material], and [''] is false. *)
Lemma query_skips_empty_material :
  fst (get "artifacts" (VStr "art_3") blank_store) = Ok (VArtifact blank_art) /\
  material blank_art = Some "" /\
  contains (lower "") (lower "") = true /\
  fst (query_artifacts_by_material "" blank_store) = Ok [].
Proof. repeat split; by vm_compute. Qed.

(** The end of [demo()]: [display_status] of the stored artifact. *)
Lemma display_status_fields_witness :
  fst (display_status demo_art TheShelf demo_store)
  = Ok {| st_artifact_id := "art_1";
          st_title := "Portrait of Marina";
          st_on_loan := true;
          st_loan_ref := Some "loan_1";
          st_current_version := Some "ver_1";
          st_last_conservation := Some "cons_1" |}.
Proof.
  destruct (display_status_fields demo_art demo_store true (VLoan demo_loan))
    as [H _].
  - by vm_compute.
  - constructor; [|constructor]. right. exists (VConservation demo_cons).
    split; [by vm_compute|by exists demo_cons].
  - exact H.
Defined.


Lemma put_flushes_cache_witness :
  let sh' := snd (put "loans" "loan_1" (VLoan demo_loan) fresh_store) in
  cache sh' = ∅ /\
  (exists col, disk sh' !! "loans" = Some col /\
               dict_get "loan_1" col = Some (VLoan demo_loan)) /\
  fst (get "loans" (VStr "loan_1") (snd (SimpleOODB (close sh'))))
  = Ok (VLoan demo_loan).
Proof.
  apply (put_flushes_cache fresh_store "loans" "loan_1" (VLoan demo_loan)).
  by vm_compute.
Defined.

Lemma put_non_artifact_is_kept_witness :
  let sh' := snd (put "artifacts" "person_1" (VPerson demo_p1) fresh_store) in
  fst (put "artifacts" "person_1" (VPerson demo_p1) fresh_store)
  = Raise AttributeError /\
  fst (get "artifacts" (VStr "person_1") sh') = Ok (VPerson demo_p1) /\
  fst (get "artifacts" (VStr "person_1") (snd (SimpleOODB (close sh'))))
  = Ok (VPerson demo_p1).
Proof.
  destruct (put_non_artifact_is_kept fresh_store "person_1" (VPerson demo_p1))
    as (H1 & _ & H3 & _ & H5).
  - vm_compute. eauto.
  - vm_compute. eauto.
  - done.
  - split; [exact H1|]. split; [exact H3|exact H5].
Defined.


Lemma put_artifacts_outcome_witness :
  fst (put "artifacts" "art_1" (VArtifact demo_art) fresh_store) = Ok tt.
Proof.
  rewrite (put_artifacts_outcome fresh_store "art_1" (VArtifact demo_art)).
  - by vm_compute.
  - vm_compute. eauto.
Defined.

Lemma reachable_store_invariants_witness :
  let sh := snd (put "artifacts" "person_1" (VPerson demo_p1) fresh_store) in
  (forall c, c ∈ COLLECTIONS -> is_Some (disk sh !! c)) /\
  known_keys sh /\
  has_title_index sh /\
  cache_on_file sh /\
  (forall c k r, c ∈ COLLECTIONS -> fst (put c k r sh) <> Raise KeyError).
Proof.
  apply (reachable_store_invariants
           (snd (put "artifacts" "person_1" (VPerson demo_p1) fresh_store))).
  apply reach_put, reach_new.
Defined.

Lemma close_reopen_round_trip_witness :
  let sh := snd (put "loans" "loan_1" (VLoan demo_loan) fresh_store) in
  fst (SimpleOODB (close sh)) = Ok tt /\
  fst (get "loans" (VStr "loan_1") (snd (SimpleOODB (close sh))))
  = fst (get "loans" (VStr "loan_1") sh).
Proof.
  apply (close_reopen_round_trip
           (snd (put "loans" "loan_1" (VLoan demo_loan) fresh_store))
           "loans" (VStr "loan_1")).
  apply reach_put, reach_new.
Defined.

Lemma query_by_restorer_exact_witness :
  fst (query_conservation_by_restorer "person_1" demo_store)
  = Ok [VConservation demo_cons] /\
  fst (query_conservation_by_restorer "PERSON_1" demo_store) = Ok [].
Proof.
  destruct (query_by_restorer_exact demo_store "person_1") as [H1 _].
  destruct (query_by_restorer_exact demo_store "PERSON_1") as [H2 _].
  destruct (H1 [("cons_1", VConservation demo_cons)]) as [E1 _];
    [by vm_compute|constructor; [by exists demo_cons|constructor]|].
  destruct (H2 [("cons_1", VConservation demo_cons)]) as [E2 _];
    [by vm_compute|constructor; [by exists demo_cons|constructor]|].
  split; [exact E1|exact E2].
Defined.

Lemma query_empty_string_returns_all_witness :
  exists l,
    fst (query_artifacts_by_material "" materials_store) = Ok l /\
    forall v, v ∈ l <->
              v ∈ [VArtifact oil_art; VArtifact tempera_art] /\
              exists a s, v = VArtifact a /\ material a = Some s /\ s <> "".
Proof.
  apply (query_empty_string_returns_all materials_store
           [("art_1", VArtifact oil_art); ("art_2", VArtifact tempera_art)]).
  - by vm_compute.
  - constructor; [by exists oil_art|].
    constructor; [by exists tempera_art|]. constructor.
Defined.

Lemma failed_put_breaks_material_query_witness :
  fst (query_artifacts_by_material "oil" materials_store)
  = Ok [VArtifact oil_art] /\
  fst (query_artifacts_by_material "oil"
         (snd (put "artifacts" "person_1" (VPerson demo_p1) materials_store)))
  = Raise AttributeError.
Proof.
  split; [by vm_compute|].
  destruct (failed_put_breaks_material_query materials_store "person_1"
              (VPerson demo_p1) "oil") as [H _].
  - vm_compute. eauto.
  - done.
  - exact H.
Defined.


Lemma is_on_loan_on_other_objects_witness :
  let sh := snd (put "loans" "l_bad" (VPerson demo_p1)
                   (snd (put "loans" "l_none" VNone loans_store))) in
  fst (is_on_loan (art_with_loans ["gone"; "l_none"; "l_bad"; "l_act"])
         TheShelf sh)
  = Raise AttributeError.
Proof.
  cbv zeta.
  apply (is_on_loan_on_other_objects
           (art_with_loans ["gone"; "l_none"; "l_bad"; "l_act"])
           (snd (put "loans" "l_bad" (VPerson demo_p1)
                   (snd (put "loans" "l_none" VNone loans_store))))
           ["gone"; "l_none"] "l_bad" ["l_act"] (VPerson demo_p1)).
  - reflexivity.
  - constructor; [left; left; by vm_compute|].
    constructor; [right; exists VNone; split; by vm_compute|]. constructor.
  - by vm_compute.
  - reflexivity.
  - done.
Defined.

Lemma current_version_after_append_witness :
  current_version (append_version demo_art
                     (mkArtifactVersion "ver_2" "2024-01-01 10:00:00"
                        "Recatalogued" []))
  = Some (mkArtifactVersion "ver_2" "2024-01-01 10:00:00" "Recatalogued" []) /\
  current_version (append_version demo_art
                     (mkArtifactVersion "ver_0" "2023-12-31 09:00:00"
                        "Import" []))
  = current_version demo_art.
Proof.
  split.
  - destruct (current_version_after_append demo_art
                (mkArtifactVersion "ver_2" "2024-01-01 10:00:00"
                   "Recatalogued" [])) as [H _].
    apply H. repeat constructor.
  - destruct (current_version_after_append demo_art
                (mkArtifactVersion "ver_0" "2023-12-31 09:00:00" "Import" []))
      as [_ H].
    apply H. left. reflexivity.
Defined.


